(** * Contact tracing tracker (src/contact_tracing.py), shallow embedding.

    The [Tracker] class keeps two mappings:
    - [self.positions], a plain dict from person id to the tuple [(x, y)];
    - [self.contact_history], a [defaultdict(deque)] from person id to the
      deque of contact dicts [{'person', 'position', 'time'}].

    Message bodies are decoded with [json.loads]; the decoded Python values
    are modelled by [json], and Python's [==] on them by [py_eq].  Python
    dicts keep insertion order, and [check_contacts] iterates
    [self.positions.items()] in that order, so both mappings are association
    lists updated in place, with keys compared by [py_eq].

    [time.time()] is read from an abstract clock: the n-th call of the run
    returns [clock n].  The tracker state counts the calls made so far. *)

From Stdlib Require Import String List ZArith Bool Arith Lia.
Import ListNotations.
Open Scope list_scope.
Set Warnings "-register-all".

(** ** Decoded JSON values

    The values [json.loads] can return.  Numbers are modelled as integers
    (the properties below do not involve fractional numbers).  [json_eqb]
    below is structural identity of decoded values; Python's [==] is
    [py_eq], further down. *)
Inductive json : Type :=
| JNull
| JBool (b : bool)
| JInt (z : Z)
| JStr (s : string)
| JArr (l : list json)
| JObj (l : list (string * json)).

Fixpoint json_eqb (a b : json) {struct a} : bool :=
  match a, b with
  | JNull, JNull => true
  | JBool x, JBool y => Bool.eqb x y
  | JInt x, JInt y => Z.eqb x y
  | JStr x, JStr y => String.eqb x y
  | JArr l1, JArr l2 =>
      (fix go (l1 l2 : list json) : bool :=
         match l1, l2 with
         | [], [] => true
         | u :: r1, v :: r2 => json_eqb u v && go r1 r2
         | _, _ => false
         end) l1 l2
  | JObj l1, JObj l2 =>
      (fix go (l1 l2 : list (string * json)) : bool :=
         match l1, l2 with
         | [], [] => true
         | (k1, u) :: r1, (k2, v) :: r2 =>
             String.eqb k1 k2 && json_eqb u v && go r1 r2
         | _, _ => false
         end) l1 l2
  | _, _ => false
  end.

Section JsonInd.
Variable P : json -> Prop.
Hypothesis Pnull : P JNull.
Hypothesis Pbool : forall b, P (JBool b).
Hypothesis Pint : forall z, P (JInt z).
Hypothesis Pstr : forall s, P (JStr s).
Hypothesis Parr : forall l, Forall P l -> P (JArr l).
Hypothesis Pobj : forall l, Forall (fun kv => P (snd kv)) l -> P (JObj l).

Fixpoint json_ind' (j : json) : P j :=
  match j with
  | JNull => Pnull
  | JBool b => Pbool b
  | JInt z => Pint z
  | JStr s => Pstr s
  | JArr l =>
      Parr l ((fix go (l : list json) : Forall P l :=
                 match l with
                 | [] => Forall_nil _
                 | u :: r => Forall_cons _ (json_ind' u) (go r)
                 end) l)
  | JObj l =>
      Pobj l ((fix go (l : list (string * json))
                 : Forall (fun kv => P (snd kv)) l :=
                 match l with
                 | [] => Forall_nil _
                 | kv :: r => Forall_cons _ (json_ind' (snd kv)) (go r)
                 end) l)
  end.
End JsonInd.

(** Python's [==] on decoded values: [True == 1] and [False == 0], lists
    compare itemwise, dicts as mappings whatever the order of their keys
    (a decoded dict has distinct keys).  Both sides are brought to a
    canonical form, booleans as integers and dict entries sorted by key,
    and compared structurally.  Hashable values that are [==] have equal
    hashes, so the same relation decides when two dict keys are one key. *)
Fixpoint insert_key (kv : string * json) (l : list (string * json))
  : list (string * json) :=
  match l with
  | [] => [kv]
  | kv' :: r =>
      if String.leb (fst kv) (fst kv') then kv :: l else kv' :: insert_key kv r
  end.

Fixpoint canon (j : json) : json :=
  match j with
  | JBool b => JInt (if b then 1 else 0)%Z
  | JArr l => JArr (map canon l)
  | JObj l =>
      JObj (fold_right insert_key []
              (map (fun kv => match kv with (k, v) => (k, canon v) end) l))
  | _ => j
  end.

Definition py_eq (a b : json) : bool := json_eqb (canon a) (canon b).

(** Python dict keys must be hashable: lists and dicts raise [TypeError]. *)
Definition hashable (j : json) : bool :=
  match j with
  | JArr _ | JObj _ => false
  | _ => true
  end.

(** ** Tracker state *)

(** A contact dict [{'person': ..., 'position': (x, y), 'time': ...}]. *)
Record contact {T : Type} : Type := mk_contact {
  person : json;
  cposition : json * json;
  time : T
}.
Arguments contact : clear implicits.

(** Python dict lookup and item assignment on an insertion-ordered dict,
    keys compared by [==]: assignment to a present key keeps its place and
    the key object already stored, a new key goes last. *)
Fixpoint dict_get {A : Type} (d : list (json * A)) (k : json) : option A :=
  match d with
  | [] => None
  | (k', v) :: r => if py_eq k k' then Some v else dict_get r k
  end.

Fixpoint dict_set {A : Type} (d : list (json * A)) (k : json) (v : A)
  : list (json * A) :=
  match d with
  | [] => [(k, v)]
  | (k', v') :: r =>
      if py_eq k k' then (k', v) :: r else (k', v') :: dict_set r k v
  end.

(** The keys of a dict are pairwise unequal under [==]. *)
Definition keys_distinct {A : Type} (d : list (json * A)) : Prop :=
  NoDup (map (fun kv => canon (fst kv)) d).

(** [==] on two tuples [(x, y)]: itemwise. *)
Definition pos_eqb (p q : json * json) : bool :=
  py_eq (fst p) (fst q) && py_eq (snd p) (snd q).

Section Tracker.

(** Readings of [time.time()]: the n-th call returns [clock n]. *)
Variable T : Type.
Variable clock : nat -> T.
(** [MAX_HISTORY], read from the configuration file. *)
Variable max_history : nat.

Record tracker : Type := mk_tracker {
  positions : list (json * (json * json));
  contact_history : list (json * list (contact T));
  ticks : nat
}.

(** A state monad in which a raised exception ([None]) keeps the state
    reached so far: Python mutates objects in place, so writes made before
    a [raise] persist. *)
Definition M (A : Type) : Type := tracker -> option A * tracker.

Definition ret {A} (a : A) : M A := fun s => (Some a, s).
Definition raise {A} : M A := fun s => (None, s).
Definition bind {A B} (m : M A) (k : A -> M B) : M B :=
  fun s => match m s with
           | (Some a, s') => k a s'
           | (None, s') => (None, s')
           end.
Definition get : M tracker := fun s => (Some s, s).
Definition put (s : tracker) : M unit := fun _ => (Some tt, s).

(** [try: m  except Exception: log] *)
Definition try_log (m : M unit) : M unit :=
  fun s => (Some tt, snd (m s)).

Local Notation "x <- m ;; k" := (bind m (fun x => k))
  (at level 61, m at next level, right associativity).
Local Notation "m ;; k" := (bind m (fun _ => k))
  (at level 61, right associativity).

(** [time.time()] *)
Definition time_time : M T :=
  fun s => (Some (clock (ticks s)),
            mk_tracker (positions s) (contact_history s) (S (ticks s))).

Definition set_history (k : json) (h : list (contact T)) : M unit :=
  fun s => (Some tt, mk_tracker (positions s)
                       (dict_set (contact_history s) k h) (ticks s)).

(** [self.contact_history[k]] on a [defaultdict(deque)]: a missing key is
    inserted with an empty deque. *)
Definition history_getitem (k : json) : M (list (contact T)) :=
  fun s => match dict_get (contact_history s) k with
           | Some h => (Some h, s)
           | None => (Some [], mk_tracker (positions s)
                                 (dict_set (contact_history s) k []) (ticks s))
           end.

(** [deque.popleft()]: [IndexError] on an empty deque. *)
Definition popleft (k : json) (h : list (contact T)) : M (list (contact T)) :=
  match h with
  | [] => raise
  | _ :: t => set_history k t ;; ret t
  end.

(** [Tracker.update_contact_history] *)
Definition update_contact_history (person_id : json) (contact_info : contact T)
  : M unit :=
  h <- history_getitem person_id ;;
  h' <- (if max_history <=? length h then popleft person_id h else ret h) ;;
  set_history person_id (app h' [contact_info]).

(** A sequence of [update_contact_history] calls for one agent, as made
    by the loop of [test_contact_history] in src/test_tracker.py. *)
Fixpoint update_contact_history_seq (person_id : json) (es : list (contact T))
  : M unit :=
  match es with
  | [] => ret tt
  | e :: rest =>
      update_contact_history person_id e ;;
      update_contact_history_seq person_id rest
  end.

(** First loop of [check_contacts]: the scan of [self.positions.items()].
    Each match reads the clock twice: once for the ['time'] field and once
    in the f-string of the [logger.info] call. *)
Fixpoint scan_positions (person_id x y : json)
    (items : list (json * (json * json))) : M (list (contact T)) :=
  match items with
  | [] => ret []
  | (other_id, other_pos) :: rest =>
      if negb (py_eq other_id person_id) && pos_eqb other_pos (x, y) then
        t <- time_time ;;
        _ <- time_time ;;
        cs <- scan_positions person_id x y rest ;;
        ret (mk_contact T other_id (x, y) t :: cs)
      else scan_positions person_id x y rest
  end.

(** Second loop of [check_contacts]: both directions of each contact. *)
Fixpoint record_contacts (person_id x y : json) (contacts : list (contact T))
  : M unit :=
  match contacts with
  | [] => ret tt
  | c :: rest =>
      update_contact_history person_id c ;;
      t <- time_time ;;
      update_contact_history (person c) (mk_contact T person_id (x, y) t) ;;
      record_contacts person_id x y rest
  end.

(** [Tracker.check_contacts] *)
Definition check_contacts (person_id x y : json) : M unit :=
  s <- get ;;
  contacts <- scan_positions person_id x y (positions s) ;;
  record_contacts person_id x y contacts.

(** ** Ingesting a position update *)

(** [data[k]] on a decoded message: only a dict can be indexed by a
    string, and a missing key raises [KeyError].  A decoded object has
    distinct keys ([json.loads] keeps one entry per key). *)
Fixpoint obj_lookup (l : list (string * json)) (k : string) : option json :=
  match l with
  | [] => None
  | (k', v) :: r => if String.eqb k k' then Some v else obj_lookup r k
  end.

Definition getitem (data : json) (k : string) : M json :=
  match data with
  | JObj l => match obj_lookup l k with Some v => ret v | None => raise end
  | _ => raise
  end.

(** [x, y = v]: iterable unpacking into exactly two targets.  A list gives
    its items, a string its characters, a dict its keys; anything else, or
    a length other than 2, raises. *)
Definition unpack2 (v : json) : M (json * json) :=
  match v with
  | JArr [a; b] => ret (a, b)
  | JStr (String c1 (String c2 EmptyString)) =>
      ret (JStr (String c1 EmptyString), JStr (String c2 EmptyString))
  | JObj [(k1, _); (k2, _)] => ret (JStr k1, JStr k2)
  | _ => raise
  end.

(** [self.positions.get(person_id)]: [TypeError] on an unhashable key. *)
Definition positions_get (k : json) : M (option (json * json)) :=
  if hashable k then fun s => (Some (dict_get (positions s) k), s)
  else raise.

(** [self.positions[person_id] = (x, y)] *)
Definition positions_set (k : json) (p : json * json) : M unit :=
  fun s => (Some tt, mk_tracker (dict_set (positions s) k p)
                       (contact_history s) (ticks s)).

(** [old_pos != (x, y)], where [old_pos] may be [None]. *)
Definition moved (old_pos : option (json * json)) (p : json * json) : bool :=
  match old_pos with
  | None => true
  | Some q => negb (pos_eqb q p)
  end.

(** [Tracker.handle_position_update].  [body] is the result of
    [json.loads(body)], [None] when the body is not a JSON document. *)
Definition handle_position_update (body : option json) : M unit :=
  try_log (
    data <- (match body with Some d => ret d | None => raise end) ;;
    person_id <- getitem data "person_id" ;;
    pos <- getitem data "position" ;;
    xy <- unpack2 pos ;;
    old_pos <- positions_get person_id ;;
    positions_set person_id xy ;;
    (if moved old_pos xy then check_contacts person_id (fst xy) (snd xy)
     else ret tt)).

(** The consumer loop ([start_consuming]) delivering position updates
    one after the other. *)
Fixpoint handle_position_updates (bodies : list (option json)) : M unit :=
  match bodies with
  | [] => ret tt
  | b :: rest => handle_position_update b ;; handle_position_updates rest
  end.

(** ** Answering a query *)

(** The reply published by [handle_query]. *)
Record response : Type := mk_response {
  resp_person_id : string;
  resp_contacts : list (contact T);
  resp_timestamp : T
}.

(** [self.contact_history.get(k, [])]: no entry is created. *)
Definition history_get (h : list (json * list (contact T))) (k : json)
  : list (contact T) :=
  match dict_get h k with Some l => l | None => [] end.

(** [Tracker.handle_query], up to the publication of the reply.
    [person_id] is [body.decode()]. *)
Definition handle_query (person_id : string) : M response :=
  s <- get ;;
  let contacts :=
    map (fun c => mk_contact T (person c) (cposition c) (time c))
        (history_get (contact_history s) (JStr person_id)) in
  t <- time_time ;;
  ret (mk_response person_id contacts t).

(** The messages [start_consuming] hands to the callbacks registered in
    [Tracker.setup_rabbitmq] on the one channel of [Tracker.run]: a
    position update (its decoded body) or a query (its decoded body). *)
Inductive delivery : Type :=
| Position (body : option json)
| Query (person_id : string).

(** [self.rabbit_channel.start_consuming()] on that channel: the
    [BlockingConnection] dispatches each delivery, in arrival order, to its
    callback, which runs to completion before the next one is dispatched.
    The replies published by [handle_query] are collected in order. *)
Fixpoint consume (ds : list delivery) : M (list response) :=
  match ds with
  | [] => ret []
  | Position b :: rest => handle_position_update b ;; consume rest
  | Query a :: rest =>
      r <- handle_query a ;;
      rs <- consume rest ;;
      ret (r :: rs)
  end.

(** ** The contact appends made by [check_contacts]

    Derived views used to state what [check_contacts] does: the sequence of
    [update_contact_history] calls it performs, and the effect of one call
    on a history, as pure functions. *)

(** One [update_contact_history] call on the deque [h]. *)
Definition push (h : list (contact T)) (e : contact T) : list (contact T) :=
  app (if max_history <=? length h then tl h else h) [e].

(** The ids, in dict order, of the other agents stored at [(x, y)]. *)
Definition colocated (ps : list (json * (json * json))) (person_id x y : json)
  : list json :=
  map fst (filter (fun qp => negb (py_eq (fst qp) person_id)
                             && pos_eqb (snd qp) (x, y)) ps).

(** The contacts built by the first loop, the first one stamped with
    clock reading [t]. *)
Fixpoint fwd_contacts (x y : json) (t : nat) (qs : list json)
  : list (contact T) :=
  match qs with
  | [] => []
  | q :: r => mk_contact T q (x, y) (clock t) :: fwd_contacts x y (t + 2) r
  end.

(** The [update_contact_history] calls of the second loop, as
    (owner, event) pairs in call order. *)
Fixpoint record_calls (person_id x y : json) (t : nat) (cs : list (contact T))
  : list (json * contact T) :=
  match cs with
  | [] => []
  | c :: r =>
      (person_id, c) :: (person c, mk_contact T person_id (x, y) (clock t))
        :: record_calls person_id x y (S t) r
  end.

Definition contact_appends (t0 : nat) (person_id x y : json)
    (ps : list (json * (json * json))) : list (json * contact T) :=
  let qs := colocated ps person_id x y in
  record_calls person_id x y (t0 + 2 * length qs) (fwd_contacts x y t0 qs).

(** The events appended to [o]'s history, in call order. *)
Definition owner_events (o : json) (calls : list (json * contact T))
  : list (contact T) :=
  map snd (filter (fun oc => py_eq (fst oc) o) calls).

Fixpoint count_json (l : list json) (q : json) : nat :=
  match l with
  | [] => 0
  | a :: r => (if py_eq a q then 1 else 0) + count_json r q
  end.

End Tracker.

(** The number of queries among the deliveries [ds]. *)
Definition count_queries (ds : list delivery) : nat :=
  length (filter (fun d => match d with Query _ => true | _ => false end) ds).


(** The last [n] elements of [l], in order. *)
Definition lastn {A : Type} (n : nat) (l : list A) : list A :=
  skipn (length l - n) l.

(** The store of [test_position_check] in src/test_tracker.py, with no
    contact recorded yet. *)
Definition test_state (T : Type) : tracker T :=
  mk_tracker T
    [(JStr "person1", (JInt 1, JInt 1)); (JStr "person2", (JInt 1, JInt 1));
     (JStr "person3", (JInt 2, JInt 2))] [] 0.

(** The message [json.dumps({'person_id': pid, 'position': (x, y), ...})]
    of [PersonSimulator.publish_position], as decoded by [json.loads]. *)
Definition position_message (person_id : string) (x y speed timestamp : json)
  : json :=
  JObj [("person_id"%string, JStr person_id);
        ("position"%string, JArr [x; y]);
        ("speed"%string, speed);
        ("timestamp"%string, timestamp)].

(** ** The agent simulator (class [PersonSimulator]) *)

(** The [directions] of [PersonSimulator.move_randomly]. *)
Definition directions : list (Z * Z) :=
  [(0, 1); (1, 0); (0, -1); (-1, 0); (1, 1); (1, -1); (-1, 1); (-1, -1)]%Z.

(** [PersonSimulator.move_randomly], for the direction [d] drawn by
    [random.choice(directions)]. *)
Definition move_randomly (board_size : Z) (position : Z * Z) (d : Z * Z)
  : Z * Z :=
  let new_x := Z.max 0 (Z.min (board_size - 1) (fst position + fst d)) in
  let new_y := Z.max 0 (Z.min (board_size - 1) (snd position + snd d)) in
  (new_x, new_y).

(** The positions a simulator publishes: its initial position, then one
    per move, for the drawn directions [ds]. *)
Fixpoint simulator_positions (board_size : Z) (position : Z * Z)
    (ds : list (Z * Z)) : list (Z * Z) :=
  position :: match ds with
              | [] => []
              | d :: rest =>
                  simulator_positions board_size
                    (move_randomly board_size position d) rest
              end.

(** A grid cell: both coordinates in [0, board_size). *)
Definition in_grid (board_size : Z) (p : Z * Z) : Prop :=
  (0 <= fst p < board_size)%Z /\ (0 <= snd p < board_size)%Z.

(** Every position held in the store is an integer pair on the grid. *)
Definition store_in_grid (board_size : Z) (ps : list (json * (json * json)))
  : Prop :=
  forall k p, In (k, p) ps ->
    exists x y, p = (JInt x, JInt y) /\ in_grid board_size (x, y).

(** For a stream of reports [(person_id, (x, y))], the position last
    reported for the key [k], if any. *)
Fixpoint last_report (reports : list (string * (json * json))) (k : json)
  : option (json * json) :=
  match reports with
  | [] => None
  | (a, p) :: rest =>
      match last_report rest k with
      | Some q => Some q
      | None => if json_eqb k (JStr a) then Some p else None
      end
  end.

(** ** The GUI (class [ContactTracingGUI]) *)

(** The value [self.people_data[person_id]] written by [update_gui]:
    [{'position': tuple(data['position']), 'speed': ..., 'last_update':
    time.time()}].  The tuple is held as [JArr] of its items (the items of
    the decoded list, the characters of a string, the keys of a dict);
    tuples compare itemwise, as [py_eq] does on [JArr]. *)
Record gui_entry {T : Type} : Type := mk_gui_entry {
  gposition : json;
  gspeed : json;
  last_update : T
}.
Arguments gui_entry : clear implicits.

(** The first pass of [draw_people] goes through for an entry exactly when
    [x, y = data['position']] unpacks two items, [x * self.cell_size + ...]
    is integer arithmetic (an [int] or a [bool] coordinate; a string, list,
    dict or [None] raises [TypeError]), and [person_id[0].upper()] finds a
    first character (a non-string id raises [TypeError], the empty string
    [IndexError]). *)
Definition numeric (j : json) : bool :=
  match j with JInt _ | JBool _ => true | _ => false end.

Definition first_pass_ok {T : Type} (pd : json * gui_entry T) : bool :=
  match fst pd, gposition (snd pd) with
  | JStr (String _ _), JArr [x; y] => numeric x && numeric y
  | _, _ => false
  end.

(** The grouping pass of [draw_people]: [meeting_spots = defaultdict(list)]
    and [meeting_spots[pos].append(person_id)] for each entry of
    [self.people_data], in dict order.  A missing key is inserted (last)
    with an empty list, which then receives the id. *)
Definition meeting_spots {T : Type} (people_data : list (json * gui_entry T))
  : list (json * list json) :=
  fold_left
    (fun ms pd =>
       let pos := gposition (snd pd) in
       dict_set ms pos
         (app (match dict_get ms pos with Some l => l | None => [] end) [fst pd]))
    people_data [].

(** The meeting indicators drawn by [draw_people]: for each
    [(pos, people)] of [meeting_spots.items()] with [len(people) > 1], a
    circle at [pos] labelled with [len(people)].  The canvas calls
    themselves are not modelled.  The tuple keys are hashable once the
    first pass has gone through (their two items are numbers). *)
Definition meeting_indicators {T : Type} (people_data : list (json * gui_entry T))
  : list (json * nat) :=
  map (fun pp => (fst pp, length (snd pp)))
    (filter (fun pp => 1 <? length (snd pp)) (meeting_spots people_data)).

(** [ContactTracingGUI.draw_people]: [None] when the first pass raises, before any
    meeting indicator is drawn; otherwise the indicators drawn. *)
Definition draw_people {T : Type} (people_data : list (json * gui_entry T))
  : option (list (json * nat)) :=
  if forallb first_pass_ok people_data
  then Some (meeting_indicators people_data) else None.

(** The people of [people_data] standing on a cell [== pos], in dict
    order. *)
Definition people_at {T : Type} (people_data : list (json * gui_entry T)) (pos : json)
  : list json :=
  map fst (filter (fun pd => py_eq (gposition (snd pd)) pos) people_data).

(** [d.pop(k, None)] for a key [k] taken from [d] itself: the entries of a
    dict have pairwise unequal keys, so it removes the one entry whose key
    is that very object. *)
Definition dict_pop {A : Type} (d : list (json * A)) (k : json) : list (json * A) :=
  filter (fun kv => negb (json_eqb (fst kv) k)) d.

(** The pruning step of [update_gui]: the ids whose entry is stale
    ([current_time - data['last_update'] > 5], decided by [stale]) are
    collected in dict order into [inactive], then popped one by one. *)
Definition remove_inactive {T : Type} (stale : T -> bool)
    (people_data : list (json * gui_entry T)) : list (json * gui_entry T) :=
  let inactive :=
    map fst (filter (fun pd => stale (last_update (snd pd))) people_data) in
  fold_left dict_pop inactive people_data.

(** ** Proofs *)

Lemma json_eqb_eq : forall a b, json_eqb a b = true <-> a = b.
Proof.
  induction a as [| x | x | x | l IH | l IH] using json_ind';
    destruct b as [| y | y | y | l2 | l2]; simpl;
    try (split; intro H; congruence).
  - rewrite Bool.eqb_true_iff; split; congruence.
  - rewrite Z.eqb_eq; split; congruence.
  - rewrite String.eqb_eq; split; congruence.
  - revert l2; induction IH as [| u r Hu Hr IHr]; intros [| v r2];
      try (split; intro H; congruence).
    rewrite andb_true_iff, Hu, IHr; split.
    + intros [-> H]; congruence.
    + intro H; injection H as -> H; split; [reflexivity | congruence].
  - revert l2; induction IH as [| [k u] r Hu Hr IHr]; intros [| [k2 v] r2];
      try (split; intro H; congruence).
    simpl in Hu.
    rewrite !andb_true_iff, String.eqb_eq, Hu, IHr; split.
    + intros [[-> ->] H]; congruence.
    + intro H; injection H as -> -> H; repeat split; congruence.
Qed.



Lemma json_eqb_refl : forall a, json_eqb a a = true.
Proof. intro a; apply json_eqb_eq; reflexivity. Qed.

Lemma json_eqb_neq : forall a b, json_eqb a b = false <-> a <> b.
Proof.
  intros a b; rewrite <- json_eqb_eq; destruct (json_eqb a b); split;
    congruence.
Qed.

Lemma json_eqb_sym : forall a b, json_eqb a b = json_eqb b a.
Proof.
  intros a b; destruct (json_eqb a b) eqn:E, (json_eqb b a) eqn:F; auto.
  - apply json_eqb_eq in E; subst; rewrite json_eqb_refl in F; discriminate.
  - apply json_eqb_eq in F; subst; rewrite json_eqb_refl in E; discriminate.
Qed.

(** [py_eq] is structural identity of the canonical forms. *)
Lemma py_eq_canon a b : py_eq a b = true <-> canon a = canon b.
Proof. apply json_eqb_eq. Qed.

Lemma py_eq_refl a : py_eq a a = true.
Proof. apply json_eqb_refl. Qed.

Lemma py_eq_sym a b : py_eq a b = py_eq b a.
Proof. apply json_eqb_sym. Qed.

Lemma py_eq_trans a b c : py_eq a b = true -> py_eq b c = true -> py_eq a c = true.
Proof. rewrite !py_eq_canon; congruence. Qed.

(** [==]-equal values can replace each other on either side of [==]. *)
Lemma py_eq_l a b c : py_eq a b = true -> py_eq a c = py_eq b c.
Proof. unfold py_eq; intro H; apply json_eqb_eq in H; rewrite H; reflexivity. Qed.

Lemma py_eq_r a b c : py_eq b c = true -> py_eq a b = py_eq a c.
Proof. unfold py_eq; intro H; apply json_eqb_eq in H; rewrite H; reflexivity. Qed.

(** A string is [==] only to the same string. *)
Lemma py_eq_str z a : py_eq z (JStr a) = json_eqb z (JStr a).
Proof. destruct z; reflexivity. Qed.

Lemma py_eq_str_neq a b : a <> b -> py_eq (JStr a) (JStr b) = false.
Proof. intro H; unfold py_eq; simpl; apply String.eqb_neq; exact H. Qed.

Lemma pos_eqb_refl p : pos_eqb p p = true.
Proof. unfold pos_eqb; rewrite !py_eq_refl; reflexivity. Qed.

Lemma dict_get_congr {A : Type} (d : list (json * A)) k k' :
  py_eq k k' = true -> dict_get d k = dict_get d k'.
Proof.
  intro H; induction d as [| [k0 v0] r IH]; simpl; [reflexivity |].
  rewrite (py_eq_l k k' k0 H), IH; reflexivity.
Qed.

Lemma dict_get_set {A : Type} (d : list (json * A)) k v k' :
  dict_get (dict_set d k v) k' = if py_eq k' k then Some v else dict_get d k'.
Proof.
  induction d as [| [k0 v0] r IH]; simpl; [reflexivity |].
  destruct (py_eq k k0) eqn:E; simpl.
  - rewrite (py_eq_r k' k k0 E); destruct (py_eq k' k0); reflexivity.
  - rewrite IH; destruct (py_eq k' k0) eqn:F.
    + destruct (py_eq k' k) eqn:G; [| reflexivity].
      rewrite py_eq_sym in G; rewrite (py_eq_trans k k' k0 G F) in E; discriminate.
    + destruct (py_eq k' k); reflexivity.
Qed.

Lemma in_keys_dict_set {A : Type} (d : list (json * A)) k v z :
  In z (map fst (dict_set d k v)) -> In z (map fst d) \/ z = k.
Proof.
  induction d as [| [k0 v0] r IH]; simpl.
  - intros [H | []]; right; auto.
  - destruct (py_eq k k0); simpl; intros [H | H]; auto.
    destruct (IH H); auto.
Qed.

Lemma in_dict_set {A : Type} (d : list (json * A)) k v kp :
  In kp (dict_set d k v) -> In kp d \/ snd kp = v.
Proof.
  induction d as [| [k0 v0] r IH]; simpl.
  - intros [<- | []]; right; reflexivity.
  - destruct (py_eq k k0); simpl; intros [H | H]; auto.
    + subst kp; right; reflexivity.
    + destruct (IH H); auto.
Qed.

Lemma dict_set_distinct {A : Type} (d : list (json * A)) k v :
  keys_distinct d -> keys_distinct (dict_set d k v).
Proof.
  unfold keys_distinct.
  induction d as [| [k0 v0] r IH]; simpl; intro Hnd.
  - constructor; [intros [] | constructor].
  - inversion Hnd as [| ? ? Hk Hr]; subst.
    destruct (py_eq k k0) eqn:E; simpl; constructor; auto.
    intro Hin; apply in_map_iff in Hin as ([z w] & Hz & Hin); simpl in Hz.
    assert (Hz' : In z (map fst (dict_set r k v)))
      by (apply in_map_iff; exists (z, w); auto).
    apply in_keys_dict_set in Hz' as [Hz' | ->].
    + apply Hk; apply in_map_iff in Hz' as ([z' w'] & Hz'' & Hin'); simpl in Hz''.
      subst z'; apply in_map_iff; exists (z, w'); split; [exact Hz | exact Hin'].
    + rewrite (proj2 (py_eq_canon k k0) Hz) in E; discriminate.
Qed.

Lemma keys_distinct_filter {A : Type} (g : json * A -> bool) d :
  keys_distinct d -> keys_distinct (filter g d).
Proof.
  unfold keys_distinct; induction d as [| kv r IH]; simpl; [auto |].
  intro Hnd; inversion Hnd as [| ? ? Hk Hr]; subst.
  destruct (g kv); simpl; [constructor |]; auto.
  intro Hin; apply Hk; apply in_map_iff in Hin as (kv' & E & Hin).
  apply filter_In in Hin as [Hin _].
  apply in_map_iff; exists kv'; auto.
Qed.

Lemma dict_get_some_in {A : Type} (d : list (json * A)) k v :
  dict_get d k = Some v -> exists k', py_eq k k' = true /\ In (k', v) d.
Proof.
  induction d as [| [k0 v0] r IH]; simpl; [discriminate |].
  destruct (py_eq k k0) eqn:E.
  - intro H; injection H as ->; exists k0; split; [exact E | left; reflexivity].
  - intro H; destruct (IH H) as (k' & Hk & Hin).
    exists k'; split; [exact Hk | right; exact Hin].
Qed.

Lemma dict_get_in_distinct {A : Type} (d : list (json * A)) k v :
  keys_distinct d -> In (k, v) d -> dict_get d k = Some v.
Proof.
  unfold keys_distinct; induction d as [| [k0 v0] r IH]; simpl; [intros _ [] |].
  intros Hnd Hin; inversion Hnd as [| ? ? Hk Hr]; subst.
  destruct Hin as [Hin | Hin].
  - injection Hin as -> ->; rewrite py_eq_refl; reflexivity.
  - destruct (py_eq k k0) eqn:E.
    + exfalso; apply Hk; apply py_eq_canon in E; rewrite <- E.
      apply in_map_iff; exists (k, v); auto.
    + apply IH; assumption.
Qed.

Lemma keys_dict_set {A : Type} (d : list (json * A)) k v :
  map fst (dict_set d k v) =
  if existsb (py_eq k) (map fst d) then map fst d else map fst d ++ [k].
Proof.
  induction d as [| [k0 v0] r IH]; simpl; [reflexivity |].
  destruct (py_eq k k0); simpl; [reflexivity |].
  rewrite IH; destruct (existsb (py_eq k) (map fst r)); reflexivity.
Qed.

Lemma existsb_str_in a l : existsb (py_eq (JStr a)) l = true <-> In (JStr a) l.
Proof.
  rewrite existsb_exists; split.
  - intros (z & Hz & E); rewrite py_eq_sym, py_eq_str in E.
    apply json_eqb_eq in E; subst; exact Hz.
  - intro H; exists (JStr a); split; [exact H | apply py_eq_refl].
Qed.

Lemma forallb_false_exists {A : Type} (f : A -> bool) l :
  forallb f l = false <-> Exists (fun a => f a = false) l.
Proof.
  induction l as [| a r IH]; simpl.
  - split; [discriminate | intro H; inversion H].
  - rewrite andb_false_iff, IH; split.
    + intros [H | H]; [left | right]; assumption.
    + intro H; inversion H; subst; auto.
Qed.

Section Proofs.

Variable T : Type.
Variable clock : nat -> T.
Variable max_history : nat.

Abbreviation tracker := (tracker T).
Abbreviation contact := (contact T).
Abbreviation push := (push T max_history).
Abbreviation hist s := (history_get T (contact_history T s)).

Lemma history_get_set (h : list (json * list contact)) k v k' :
  history_get T (dict_set h k v) k' =
  if py_eq k' k then v else history_get T h k'.
Proof.
  unfold history_get; rewrite dict_get_set; destruct (py_eq k' k); auto.
Qed.

Lemma history_get_congr (h : list (json * list contact)) k k' :
  py_eq k k' = true -> history_get T h k = history_get T h k'.
Proof. intro E; unfold history_get; rewrite (dict_get_congr h k k' E); reflexivity. Qed.

(** The effect on the histories of a sequence of appends. *)
Fixpoint apply_calls (calls : list (json * contact)) (h : json -> list contact)
  : json -> list contact :=
  match calls with
  | [] => h
  | (o, e) :: r =>
      apply_calls r (fun k => if py_eq k o then push (h k) e else h k)
  end.

Lemma apply_calls_ext calls : forall h h',
  (forall k, h k = h' k) -> forall k, apply_calls calls h k = apply_calls calls h' k.
Proof.
  induction calls as [| [o e] r IH]; simpl; intros h h' H k; auto.
  apply IH; intro k'; rewrite !H; reflexivity.
Qed.

Lemma apply_calls_owner calls : forall h k,
  apply_calls calls h k = fold_left push (owner_events T k calls) (h k).
Proof.
  induction calls as [| [o e] r IH]; intros h k; simpl; auto.
  rewrite IH; unfold owner_events; simpl.
  rewrite (py_eq_sym k o); destruct (py_eq o k); reflexivity.
Qed.

Lemma owner_events_self person_id x y cs : forall t,
  (forall c, In c cs -> py_eq (person c) person_id = false) ->
  owner_events T person_id (record_calls T clock person_id x y t cs) = cs.
Proof.
  induction cs as [| c r IH]; intros t H; simpl; auto.
  unfold owner_events in *; simpl.
  rewrite py_eq_refl; simpl.
  rewrite (H c (or_introl eq_refl)).
  rewrite IH; auto.
  intros c' Hc'; apply H; right; auto.
Qed.

Lemma owner_events_peer person_id x y q cs : forall t,
  py_eq q person_id = false ->
  map person (owner_events T q (record_calls T clock person_id x y t cs)) =
    repeat person_id (count_json (map person cs) q) /\
  forall e, In e (owner_events T q (record_calls T clock person_id x y t cs)) ->
    cposition e = (x, y) /\
    exists j, t <= j < t + length cs /\ time e = clock j.
Proof.
  induction cs as [| c r IH]; intros t Hq; simpl.
  - split; [reflexivity | intros e []].
  - destruct (IH (S t) Hq) as [IHm IHt].
    unfold owner_events in *; simpl.
    rewrite (py_eq_sym person_id q), Hq.
    destruct (py_eq (person c) q); simpl.
    + split; [rewrite IHm; reflexivity |].
      intros e [He | He].
      * subst e; split; [reflexivity | exists t; split; [lia | reflexivity]].
      * destruct (IHt e He) as [Hp (j & Hj & Ht)].
        split; [exact Hp | exists j; split; [lia | exact Ht]].
    + split; [exact IHm |].
      intros e He; destruct (IHt e He) as [Hp (j & Hj & Ht)].
      split; [exact Hp | exists j; split; [lia | exact Ht]].
Qed.

Lemma fwd_contacts_person x y qs : forall t,
  map person (fwd_contacts T clock x y t qs) = qs.
Proof. induction qs; intro t; simpl; f_equal; auto. Qed.

Lemma fwd_contacts_in x y qs : forall t e,
  In e (fwd_contacts T clock x y t qs) ->
  cposition e = (x, y) /\ exists i, i < length qs /\ time e = clock (t + 2 * i).
Proof.
  induction qs as [| q r IH]; intros t e He; simpl in He; [contradiction |].
  destruct He as [He | He].
  - subst e; split; [reflexivity | exists 0; split; [simpl; lia | simpl; f_equal; lia]].
  - destruct (IH (t + 2) e He) as [Hp (i & Hi & Ht)].
    split; [exact Hp | exists (S i); split; [simpl; lia | rewrite Ht; f_equal; lia]].
Qed.

Lemma count_json_notin l q :
  (forall a, In a l -> py_eq a q = false) -> count_json l q = 0.
Proof.
  induction l as [| a r IH]; intro H; simpl; auto.
  rewrite (H a (or_introl eq_refl)).
  apply IH; intros a' Ha'; apply H; right; exact Ha'.
Qed.

Lemma colocated_in ps person_id x y q :
  In q (colocated ps person_id x y) ->
  In q (map fst ps) /\ py_eq q person_id = false.
Proof.
  unfold colocated; rewrite in_map_iff.
  intros ([k p] & <- & Hin); apply filter_In in Hin as [Hin Hc]; simpl in *.
  apply andb_true_iff in Hc as [Hc _]; apply negb_true_iff in Hc.
  split; [apply in_map_iff; exists (k, p); auto | exact Hc].
Qed.

Lemma colocated_count ps person_id x y q :
  keys_distinct ps ->
  count_json (colocated ps person_id x y) q =
  if negb (py_eq q person_id) &&
     match dict_get ps q with Some p => pos_eqb p (x, y) | None => false end
  then 1 else 0.
Proof.
  unfold keys_distinct.
  induction ps as [| [k p] r IH]; intro Hnd; simpl; [destruct (negb _); reflexivity |].
  inversion Hnd as [| ? ? Hk Hnd']; subst.
  unfold colocated in *; simpl.
  destruct (py_eq q k) eqn:E.
  - assert (H0 : count_json (map fst (filter (fun qp => negb (py_eq (fst qp) person_id)
                   && pos_eqb (snd qp) (x, y)) r)) q = 0).
    { apply count_json_notin; intros a Hin.
      apply (colocated_in r person_id x y a) in Hin as [Hin _].
      destruct (py_eq a q) eqn:F; [| reflexivity].
      exfalso; apply Hk.
      apply in_map_iff in Hin as ([a' w] & Ha & Hin); simpl in Ha; subst a'.
      apply in_map_iff; exists (a, w); split; [| exact Hin]; simpl.
      apply py_eq_canon; exact (py_eq_trans a q k F E). }
    rewrite (py_eq_l q k person_id E).
    destruct (negb (py_eq k person_id) && pos_eqb p (x, y)); simpl;
      rewrite ?(py_eq_sym k q), ?E, H0; reflexivity.
  - destruct (negb (py_eq k person_id) && pos_eqb p (x, y)); simpl;
      rewrite ?(py_eq_sym k q), ?E; simpl;
      rewrite IH by exact Hnd'; reflexivity.
Qed.

Hypothesis max_history_pos : 0 < max_history.

Lemma update_contact_history_spec o e (s : tracker) :
  exists s',
    update_contact_history T max_history o e s = (Some tt, s') /\
    positions T s' = positions T s /\ ticks T s' = ticks T s /\
    forall k, hist s' k = if py_eq k o then push (hist s k) e else hist s k.
Proof.
  unfold update_contact_history, history_getitem, bind, push.
  destruct (dict_get (contact_history T s) o) as [h |] eqn:Hg.
  - assert (Hh : hist s o = h) by (unfold history_get; rewrite Hg; reflexivity).
    destruct (max_history <=? length h) eqn:Hm.
    + destruct h as [| c t].
      * simpl in Hm; apply Nat.leb_le in Hm; lia.
      * simpl. eexists; split; [reflexivity | split; [reflexivity | split; [reflexivity |]]].
        intro k; simpl; rewrite !history_get_set.
        destruct (py_eq k o) eqn:Ek; [| reflexivity].
        rewrite (history_get_congr _ k o Ek), Hh, Hm; reflexivity.
    + simpl. eexists; split; [reflexivity | split; [reflexivity | split; [reflexivity |]]].
      intro k; simpl; rewrite !history_get_set.
      destruct (py_eq k o) eqn:Ek; [| reflexivity].
      rewrite (history_get_congr _ k o Ek), Hh, Hm; reflexivity.
  - assert (Hh : hist s o = []) by (unfold history_get; rewrite Hg; reflexivity).
    assert (Hm : (max_history <=? 0) = false) by (apply Nat.leb_gt; lia).
    simpl; rewrite Hm; simpl. eexists; split; [reflexivity | split; [reflexivity | split; [reflexivity |]]].
    intro k; simpl; rewrite !history_get_set.
    destruct (py_eq k o) eqn:Ek; [| reflexivity].
    rewrite (history_get_congr _ k o Ek), Hh; simpl; rewrite Hm; reflexivity.
Qed.

Lemma scan_positions_spec person_id x y items : forall s,
  scan_positions T clock person_id x y items s =
  (Some (fwd_contacts T clock x y (ticks T s) (colocated items person_id x y)),
   mk_tracker T (positions T s) (contact_history T s)
     (ticks T s + 2 * length (colocated items person_id x y))).
Proof.
  induction items as [| [q p] r IH]; intro s; simpl.
  - destruct s; simpl; rewrite Nat.add_0_r; reflexivity.
  - unfold colocated in *; simpl.
    destruct (negb (py_eq q person_id) && pos_eqb p (x, y)); simpl.
    + unfold bind, time_time, ret; simpl; rewrite IH; simpl.
      replace (S (S (ticks T s))) with (ticks T s + 2) by lia.
      do 3 f_equal; lia.
    + apply IH.
Qed.

Lemma record_contacts_spec person_id x y cs : forall s,
  exists s',
    record_contacts T clock max_history person_id x y cs s = (Some tt, s') /\
    positions T s' = positions T s /\
    ticks T s' = ticks T s + length cs /\
    forall k, hist s' k =
      apply_calls (record_calls T clock person_id x y (ticks T s) cs) (hist s) k.
Proof.
  induction cs as [| c r IH]; intro s; simpl.
  - exists s; repeat split; auto.
  - destruct (update_contact_history_spec person_id c s) as (s1 & E1 & P1 & T1 & H1).
    unfold bind at 1; rewrite E1; cbv beta iota.
    unfold bind at 1; unfold time_time at 1; cbv beta iota.
    set (s2 := mk_tracker T (positions T s1) (contact_history T s1) (S (ticks T s1))).
    destruct (update_contact_history_spec (person c)
                (mk_contact T person_id (x, y) (clock (ticks T s1))) s2)
      as (s3 & E3 & P3 & T3 & H3).
    unfold bind at 1; rewrite E3; cbv beta iota.
    destruct (IH s3) as (s' & E' & P' & T' & H').
    exists s'; split; [exact E' | split; [| split]].
    + rewrite P', P3; exact P1.
    + rewrite T', T3; simpl; rewrite T1; lia.
    + intro k; rewrite H', T3; simpl; rewrite T1.
      apply apply_calls_ext; intro k'.
      rewrite H3; simpl.
      rewrite T1, !H1; reflexivity.
Qed.

Lemma fwd_contacts_length x y qs : forall t,
  length (fwd_contacts T clock x y t qs) = length qs.
Proof. induction qs; simpl; auto. Qed.

Lemma check_contacts_spec person_id x y (s : tracker) :
  exists s',
    check_contacts T clock max_history person_id x y s = (Some tt, s') /\
    positions T s' = positions T s /\
    ticks T s' = ticks T s + 3 * length (colocated (positions T s) person_id x y) /\
    forall k, hist s' k =
      fold_left push
        (owner_events T k (contact_appends T clock (ticks T s) person_id x y
                             (positions T s)))
        (hist s k).
Proof.
  unfold check_contacts, bind at 1, get; cbv beta iota.
  unfold bind at 1; rewrite scan_positions_spec; cbv beta iota.
  set (qs := colocated (positions T s) person_id x y).
  destruct (record_contacts_spec person_id x y (fwd_contacts T clock x y (ticks T s) qs)
              (mk_tracker T (positions T s) (contact_history T s)
                 (ticks T s + 2 * length qs)))
    as (s' & E & P & Tk & H).
  exists s'; split; [exact E | split; [exact P | split]].
  - rewrite Tk; simpl.
    rewrite fwd_contacts_length; lia.
  - intro k; rewrite H; simpl; rewrite apply_calls_owner; reflexivity.
Qed.


Lemma update_contact_history_seq_spec person_id es : forall s,
  exists s',
    update_contact_history_seq T max_history person_id es s = (Some tt, s') /\
    positions T s' = positions T s /\
    forall k, hist s' k =
      if py_eq k person_id then fold_left push es (hist s k) else hist s k.
Proof.
  induction es as [| e r IH]; intro s; simpl.
  - exists s; split; [reflexivity | split; [reflexivity |]].
    intro k; destruct (py_eq k person_id); reflexivity.
  - destruct (update_contact_history_spec person_id e s) as (s1 & E1 & P1 & _ & H1).
    unfold bind at 1; rewrite E1; cbv beta iota.
    destruct (IH s1) as (s' & E' & P' & H').
    exists s'; split; [exact E' | split; [congruence |]].
    intro k; rewrite H', !H1.
    destruct (py_eq k person_id); reflexivity.
Qed.

End Proofs.

Lemma colocated_count_one ps person_id x y q p :
  keys_distinct ps -> py_eq q person_id = false -> dict_get ps q = Some p ->
  pos_eqb p (x, y) = true ->
  count_json (colocated ps person_id x y) q = 1.
Proof.
  intros Hnd Hq Hg Hp; rewrite colocated_count by exact Hnd.
  rewrite Hq, Hg, Hp; reflexivity.
Qed.

Lemma colocated_count_zero ps person_id x y q :
  keys_distinct ps ->
  (py_eq q person_id = true \/
   forall p, dict_get ps q = Some p -> pos_eqb p (x, y) = false) ->
  count_json (colocated ps person_id x y) q = 0.
Proof.
  intros Hnd Hq; rewrite colocated_count by exact Hnd.
  destruct Hq as [Hq | Hg]; [rewrite Hq; reflexivity |].
  destruct (dict_get ps q) as [p |] eqn:G; [rewrite (Hg p eq_refl) |];
    destruct (negb _); reflexivity.
Qed.

Lemma lastn_length {A : Type} n (l : list A) : length (lastn n l) <= n.
Proof. unfold lastn; rewrite length_skipn; lia. Qed.

Lemma lastn_app_lastn {A : Type} n (l r : list A) :
  lastn n (lastn n l ++ r) = lastn n (l ++ r).
Proof.
  unfold lastn; rewrite !length_app, length_skipn, !skipn_app, skipn_skipn,
    length_skipn.
  destruct (Nat.le_gt_cases n (length l)).
  - f_equal; f_equal; lia.
  - replace (length l - n) with 0 by lia; simpl; rewrite Nat.sub_0_r,
      Nat.add_0_r; reflexivity.
Qed.

Lemma push_lastn {T : Type} max_history (h : list (contact T)) e :
  0 < max_history -> length h <= max_history ->
  push T max_history h e = lastn max_history (h ++ [e]).
Proof.
  intros Hpos Hle; unfold push, lastn; rewrite length_app; simpl.
  destruct (max_history <=? length h) eqn:Hm.
  - apply Nat.leb_le in Hm.
    replace (length h + 1 - max_history) with 1 by lia.
    destruct h; simpl in *; [lia | reflexivity].
  - apply Nat.leb_gt in Hm.
    replace (length h + 1 - max_history) with 0 by lia; reflexivity.
Qed.

Lemma fold_push_lastn {T : Type} max_history (es : list (contact T)) : forall h,
  0 < max_history -> length h <= max_history ->
  fold_left (push T max_history) es h = lastn max_history (h ++ es).
Proof.
  induction es as [| e r IH]; intros h Hpos Hle; simpl.
  - unfold lastn; replace (length (h ++ []) - max_history) with 0
      by (rewrite app_nil_r; lia); simpl; rewrite app_nil_r; reflexivity.
  - rewrite IH by (rewrite ?push_lastn by assumption; auto using lastn_length).
    rewrite push_lastn by assumption.
    rewrite lastn_app_lastn, <- app_assoc; reflexivity.
Qed.

Lemma count_json_in l q :
  0 < count_json l q -> exists a, In a l /\ py_eq a q = true.
Proof.
  induction l as [| a r IH]; simpl; [lia |].
  destruct (py_eq a q) eqn:E.
  - intros _; exists a; split; [left; reflexivity | exact E].
  - simpl; intro H; destruct (IH H) as (b & Hb & Eb).
    exists b; split; [right; exact Hb | exact Eb].
Qed.

Lemma lastn_app_long {A : Type} n (l r : list A) :
  n <= length r -> lastn n (l ++ r) = lastn n r.
Proof.
  intro H; unfold lastn; rewrite length_app, skipn_app, skipn_all2 by lia.
  simpl; f_equal; lia.
Qed.

Lemma handle_query_spec {T : Type} clock a (s : tracker T) :
  handle_query T clock a s =
  (Some (mk_response T a (history_get T (contact_history T s) (JStr a))
           (clock (ticks T s))),
   mk_tracker T (positions T s) (contact_history T s) (S (ticks T s))).
Proof.
  unfold handle_query, bind, get, time_time, ret; simpl.
  rewrite map_ext with (g := fun c => c) by (intros []; reflexivity).
  rewrite map_id; reflexivity.
Qed.

Lemma handle_position_update_accepted {T : Type} clock max_history
    (s : tracker T) l person_id v x y :
  obj_lookup l "person_id" = Some person_id ->
  obj_lookup l "position" = Some v ->
  unpack2 T v s = (Some (x, y), s) ->
  hashable person_id = true ->
  let s1 := mk_tracker T (dict_set (positions T s) person_id (x, y))
              (contact_history T s) (ticks T s) in
  handle_position_update T clock max_history (Some (JObj l)) s =
  (Some tt,
   if moved (dict_get (positions T s) person_id) (x, y)
   then snd (check_contacts T clock max_history person_id x y s1) else s1).
Proof.
  intros Hp Hv Hu Hh s1.
  unfold handle_position_update, try_log, bind at 1, ret at 1.
  unfold bind at 1, getitem at 1; rewrite Hp; unfold ret at 1.
  unfold bind at 1, getitem at 1; rewrite Hv; unfold ret at 1.
  unfold bind at 1; rewrite Hu.
  unfold bind at 1, positions_get; rewrite Hh.
  unfold bind at 1, positions_set; simpl.
  destruct (moved (dict_get (positions T s) person_id) (x, y)); reflexivity.
Qed.

Lemma unpack2_state {T : Type} v (s : tracker T) : snd (unpack2 T v s) = s.
Proof.
  unfold unpack2.
  repeat match goal with
         | |- context [match ?x with _ => _ end] => destruct x
         end; reflexivity.
Qed.

Lemma handle_position_update_positions {T : Type} clock max_history
    (s : tracker T) l person_id v x y :
  0 < max_history ->
  obj_lookup l "person_id" = Some person_id ->
  obj_lookup l "position" = Some v ->
  unpack2 T v s = (Some (x, y), s) ->
  hashable person_id = true ->
  positions T (snd (handle_position_update T clock max_history (Some (JObj l)) s)) =
  dict_set (positions T s) person_id (x, y).
Proof.
  intros Hmax Hp Hv Hu Hh.
  rewrite (handle_position_update_accepted clock max_history s l person_id v x y
             Hp Hv Hu Hh); simpl.
  destruct (moved _ _); [| reflexivity].
  match goal with |- context [check_contacts T clock max_history person_id x y ?s1] =>
    destruct (check_contacts_spec T clock max_history Hmax person_id x y s1)
      as (s' & E & P & _); rewrite E; simpl; rewrite P; reflexivity
  end.
Qed.

Lemma consume_position {T : Type} clock max_history b rest (s : tracker T) :
  consume T clock max_history (Position b :: rest) s =
  consume T clock max_history rest
    (snd (handle_position_update T clock max_history b s)).
Proof. reflexivity. Qed.

Lemma consume_query {T : Type} clock max_history a rest (s : tracker T) :
  let s1 := snd (handle_query T clock a s) in
  fst (consume T clock max_history (Query a :: rest) s) =
    option_map (fun rs => mk_response T a (history_get T (contact_history T s) (JStr a))
                            (clock (ticks T s)) :: rs)
      (fst (consume T clock max_history rest s1)) /\
  snd (consume T clock max_history (Query a :: rest) s) =
    snd (consume T clock max_history rest s1).
Proof.
  intro s1; subst s1; cbn [consume]; unfold bind; rewrite !handle_query_spec; simpl.
  destruct (consume T clock max_history rest _) as [[rs |] s']; split; reflexivity.
Qed.

Lemma move_randomly_in_grid board_size position d :
  (0 < board_size)%Z -> in_grid board_size (move_randomly board_size position d).
Proof. intro H; unfold in_grid, move_randomly; simpl; lia. Qed.

Section Claims.

Variable T : Type.
Variable clock : nat -> T.
Variable max_history : nat.

Abbreviation tracker := (tracker T).
Abbreviation push := (push T max_history).
Abbreviation hist s := (history_get T (contact_history T s)).

Lemma check_contacts_appends (s : tracker) person_id x y :
  0 < max_history ->
  keys_distinct (positions T s) ->
  let calls := contact_appends T clock (ticks T s) person_id x y (positions T s) in
  let r := check_contacts T clock max_history person_id x y s in
  fst r = Some tt /\
  positions T (snd r) = positions T s /\
  (forall o, hist (snd r) o =
             fold_left push (owner_events T o calls) (hist s o)) /\
  (forall q p, py_eq q person_id = false -> dict_get (positions T s) q = Some p ->
     pos_eqb p (x, y) = true ->
     count_json (map person (owner_events T person_id calls)) q = 1 /\
     map person (owner_events T q calls) = [person_id]) /\
  count_json (map person (owner_events T person_id calls)) person_id = 0 /\
  (forall q, (forall p, dict_get (positions T s) q = Some p -> pos_eqb p (x, y) = false) ->
     count_json (map person (owner_events T person_id calls)) q = 0) /\
  (forall o, py_eq o person_id = false ->
     (forall p, dict_get (positions T s) o = Some p -> pos_eqb p (x, y) = false) ->
     owner_events T o calls = []).
Proof.
  intros Hmax Hnd calls r.
  destruct (check_contacts_spec T clock max_history Hmax person_id x y s)
    as (s' & E & P & Tk & H).
  subst r; rewrite E; simpl.
  subst calls; unfold contact_appends.
  set (qs := colocated (positions T s) person_id x y).
  set (t1 := ticks T s + 2 * length qs).
  set (cs := fwd_contacts T clock x y (ticks T s) qs).
  assert (Hcs : map person cs = qs) by apply fwd_contacts_person.
  assert (Hself : owner_events T person_id (record_calls T clock person_id x y t1 cs) = cs).
  { apply owner_events_self; intros c Hc.
    assert (Hin : In (person c) qs) by (rewrite <- Hcs; apply in_map; exact Hc).
    apply colocated_in in Hin as [_ Hne]; exact Hne. }
  rewrite Hself, Hcs.
  unfold qs in *.
  split; [reflexivity | split; [exact P | split; [exact H | split; [| split; [| split]]]]].
  - intros q p Hq Hg Hp; split; [apply (colocated_count_one _ _ _ _ _ p); assumption |].
    destruct (owner_events_peer T clock person_id x y q cs t1 Hq) as [Hm _].
    rewrite Hm, Hcs, (colocated_count_one _ _ _ _ _ p) by assumption; reflexivity.
  - apply colocated_count_zero; [exact Hnd | left; apply py_eq_refl].
  - intros q Hg; apply colocated_count_zero; [exact Hnd | right; exact Hg].
  - intros o Ho Hg.
    destruct (owner_events_peer T clock person_id x y o cs t1 Ho) as [Hm _].
    rewrite Hcs, colocated_count_zero in Hm by (auto).
    apply map_eq_nil in Hm; exact Hm.
Qed.

(** The very first report of [a], sent as a simulator message, landing on
    the cell of an agent [q] already stored: the store gains [a], keeps its
    other entries, and [q]'s history receives one event, naming [a]. *)
Lemma first_report_peer (s : tracker) a x y speed timestamp q qp :
  0 < max_history ->
  keys_distinct (positions T s) ->
  dict_get (positions T s) (JStr a) = None ->
  dict_get (positions T s) q = Some qp -> pos_eqb qp (x, y) = true ->
  let s' := snd (handle_position_update T clock max_history
                   (Some (position_message a x y speed timestamp)) s) in
  keys_distinct (positions T s') /\
  (forall k, py_eq k (JStr a) = false ->
     dict_get (positions T s') k = dict_get (positions T s) k) /\
  exists e, hist s' q = push (hist s q) e /\ person e = JStr a.
Proof.
  intros Hmax Hnd Ha Hq Hp s'.
  assert (Hqa : py_eq q (JStr a) = false).
  { destruct (py_eq q (JStr a)) eqn:E; [| reflexivity].
    rewrite (dict_get_congr _ q (JStr a) E), Ha in Hq; discriminate. }
  set (s1 := mk_tracker T (dict_set (positions T s) (JStr a) (x, y))
               (contact_history T s) (ticks T s)).
  assert (Hs' : s' = snd (check_contacts T clock max_history (JStr a) x y s1)).
  { subst s'; unfold position_message.
    rewrite (handle_position_update_accepted clock max_history s
               [("person_id"%string, JStr a); ("position"%string, JArr [x; y]);
                ("speed"%string, speed); ("timestamp"%string, timestamp)]
               (JStr a) (JArr [x; y]) x y eq_refl eq_refl eq_refl eq_refl).
    rewrite Ha; reflexivity. }
  assert (Hnd1 : keys_distinct (positions T s1)) by (apply dict_set_distinct; exact Hnd).
  assert (Hg1 : dict_get (positions T s1) q = Some qp)
    by (simpl; rewrite dict_get_set, Hqa; exact Hq).
  destruct (check_contacts_appends s1 (JStr a) x y Hmax Hnd1)
    as (_ & P & Hh & Hpeer & _).
  rewrite <- Hs' in P, Hh.
  split; [rewrite P; exact Hnd1 | split].
  - intros k Hk; rewrite P; simpl; rewrite dict_get_set, Hk; reflexivity.
  - destruct (Hpeer q qp Hqa Hg1 Hp) as [_ Hm].
    destruct (owner_events T q (contact_appends T clock (ticks T s1) (JStr a) x y
                                  (positions T s1))) as [| e [| e' l]] eqn:Eo;
      try discriminate.
    injection Hm as Hm; exists e; split; [| exact Hm].
    rewrite Hh, Eo; reflexivity.
Qed.

(** Claim C1.  The detection scan [check_contacts person_id x y], run on
    any store whose keys are pairwise unequal under [==] (a dict),
    succeeds, leaves the store as it is, and appends to each agent [o]'s
    history exactly the events [owner_events o calls] of its call sequence
    [calls].  For every other agent [q] whose stored position [==]
    [(x, y)], [person_id]'s appended events name [q] exactly once and [q]
    receives exactly one event, naming [person_id]; [person_id] never
    receives an event naming itself, nor one naming an agent whose stored
    position is not [(x, y)] (or absent); any other such agent receives
    nothing. *)
Theorem check_contacts_records_both_directions (s : tracker) person_id x y :
  0 < max_history ->
  keys_distinct (positions T s) ->
  let calls := contact_appends T clock (ticks T s) person_id x y (positions T s) in
  let r := check_contacts T clock max_history person_id x y s in
  fst r = Some tt /\
  positions T (snd r) = positions T s /\
  (forall o, hist (snd r) o =
             fold_left push (owner_events T o calls) (hist s o)) /\
  (forall q p, py_eq q person_id = false -> dict_get (positions T s) q = Some p ->
     pos_eqb p (x, y) = true ->
     count_json (map person (owner_events T person_id calls)) q = 1 /\
     map person (owner_events T q calls) = [person_id]) /\
  count_json (map person (owner_events T person_id calls)) person_id = 0 /\
  (forall q, (forall p, dict_get (positions T s) q = Some p -> pos_eqb p (x, y) = false) ->
     count_json (map person (owner_events T person_id calls)) q = 0) /\
  (forall o, py_eq o person_id = false ->
     (forall p, dict_get (positions T s) o = Some p -> pos_eqb p (x, y) = false) ->
     owner_events T o calls = []).
Proof. exact (check_contacts_appends s person_id x y). Qed.

(** Claim C7.  When the scan finds [q] at [(x, y)], the event appended to
    [person_id]'s history naming [q] and the event appended to [q]'s
    history naming [person_id] both carry the position [(x, y)], and they
    are stamped with two different readings of the clock, [clock i] and
    [clock j] with [i < j]: each direction samples [time.time()] on its
    own, the scan's first (at detection), the mirror event's later. *)
Theorem check_contacts_separate_timestamps (s : tracker) person_id x y :
  0 < max_history ->
  keys_distinct (positions T s) ->
  let calls := contact_appends T clock (ticks T s) person_id x y (positions T s) in
  let r := check_contacts T clock max_history person_id x y s in
  fst r = Some tt /\
  (forall o, hist (snd r) o =
             fold_left push (owner_events T o calls) (hist s o)) /\
  forall q p, py_eq q person_id = false -> dict_get (positions T s) q = Some p ->
    pos_eqb p (x, y) = true ->
    exists e1 e2 i j,
      In e1 (owner_events T person_id calls) /\ py_eq (person e1) q = true /\
      owner_events T q calls = [e2] /\ person e2 = person_id /\
      cposition e1 = (x, y) /\ cposition e2 = (x, y) /\
      time e1 = clock i /\ time e2 = clock j /\ ticks T s <= i < j.
Proof.
  intros Hmax Hnd calls r.
  destruct (check_contacts_spec T clock max_history Hmax person_id x y s)
    as (s' & E & P & Tk & H).
  subst r; rewrite E; simpl.
  split; [reflexivity | split; [exact H |]].
  intros q p Hq Hg Hp.
  subst calls; unfold contact_appends.
  set (qs := colocated (positions T s) person_id x y).
  set (t1 := ticks T s + 2 * length qs).
  set (cs := fwd_contacts T clock x y (ticks T s) qs).
  assert (Hcs : map person cs = qs) by apply fwd_contacts_person.
  assert (Hself : owner_events T person_id (record_calls T clock person_id x y t1 cs) = cs).
  { apply owner_events_self; intros c Hc.
    assert (Hin : In (person c) qs) by (rewrite <- Hcs; apply in_map; exact Hc).
    apply colocated_in in Hin as [_ Hne]; exact Hne. }
  rewrite Hself.
  assert (Hq1 : count_json qs q = 1) by (apply (colocated_count_one _ _ _ _ _ p); assumption).
  destruct (count_json_in qs q ltac:(lia)) as (a & Ha & Eaq).
  rewrite <- Hcs in Ha.
  apply in_map_iff in Ha as (e1 & He1 & Hin1).
  destruct (fwd_contacts_in T clock x y qs (ticks T s) e1 Hin1) as (Hp1 & i & Hi & Ht1).
  destruct (owner_events_peer T clock person_id x y q cs t1 Hq) as [Hm Hpeer].
  rewrite Hcs, Hq1 in Hm; simpl in Hm.
  destruct (owner_events T q (record_calls T clock person_id x y t1 cs))
    as [| e2 [| e3 rest]] eqn:Eo; try discriminate.
  injection Hm as He2.
  destruct (Hpeer e2 (or_introl eq_refl)) as (Hp2 & j & Hj & Ht2).
  exists e1, e2, (ticks T s + 2 * i), j.
  rewrite He1.
  repeat split; auto; unfold t1 in Hj; lia.
Qed.

(** Claim C2.  From any history of [JStr a] within the bound, a sequence
    of [update_contact_history] calls with events [es] never raises, keeps
    the history within [max_history] after every prefix of the calls, and
    leaves exactly the last [max_history] elements of [old ++ es], in call
    order; once [max_history <= length es] that is the last [max_history]
    appended events.  A query for [a] then returns that same sequence. *)
Theorem contact_history_bounded_fifo (s : tracker) a es :
  0 < max_history ->
  length (hist s (JStr a)) <= max_history ->
  let r := update_contact_history_seq T max_history (JStr a) es s in
  fst r = Some tt /\
  (forall k, length (hist (snd (update_contact_history_seq T max_history (JStr a)
                                   (firstn k es) s)) (JStr a)) <= max_history) /\
  hist (snd r) (JStr a) = lastn max_history (hist s (JStr a) ++ es) /\
  (max_history <= length es -> hist (snd r) (JStr a) = lastn max_history es) /\
  fst (handle_query T clock a (snd r)) =
    Some (mk_response T a (lastn max_history (hist s (JStr a) ++ es))
            (clock (ticks T (snd r)))).
Proof.
  intros Hmax Hle r.
  assert (Hseq : forall l,
    hist (snd (update_contact_history_seq T max_history (JStr a) l s)) (JStr a) =
    lastn max_history (hist s (JStr a) ++ l) /\
    fst (update_contact_history_seq T max_history (JStr a) l s) = Some tt).
  { intro l.
    destruct (update_contact_history_seq_spec T max_history Hmax (JStr a) l s)
      as (s' & E & _ & H).
    rewrite E; simpl; rewrite H, py_eq_refl.
    split; [apply fold_push_lastn; assumption | reflexivity]. }
  destruct (Hseq es) as [Hh Hok].
  subst r; split; [exact Hok | split; [| split; [exact Hh | split]]].
  - intro k; rewrite (proj1 (Hseq (firstn k es))); apply lastn_length.
  - intro Hl; rewrite Hh; apply lastn_app_long; exact Hl.
  - rewrite handle_query_spec, Hh; reflexivity.
Qed.

(** Claim C3.  For a decoded update object [l] whose ["person_id"] is a
    hashable [person_id] and whose ["position"] unpacks to [(x, y)]:
    the call does not raise; the store entry of [person_id] is overwritten
    with [(x, y)] before anything else ([s1]); the scan [check_contacts]
    runs on [s1] exactly when the previously stored position (possibly
    none) is not [==] [(x, y)], otherwise nothing else happens.  Thus an
    unchanged re-publish leaves every history as it was, and the very
    first report of an agent (no stored key [==] to its id) landing on
    the cell of an agent [q] appends an event naming [q] to its history
    and one naming it to [q]'s history. *)
Theorem handle_position_update_scans_iff_moved (s : tracker) l person_id v x y :
  obj_lookup l "person_id" = Some person_id ->
  obj_lookup l "position" = Some v ->
  unpack2 T v s = (Some (x, y), s) ->
  hashable person_id = true ->
  let s1 := mk_tracker T (dict_set (positions T s) person_id (x, y))
              (contact_history T s) (ticks T s) in
  let r := handle_position_update T clock max_history (Some (JObj l)) s in
  fst r = Some tt /\
  snd r = (if moved (dict_get (positions T s) person_id) (x, y)
           then snd (check_contacts T clock max_history person_id x y s1)
           else s1) /\
  (forall p, dict_get (positions T s) person_id = Some p -> pos_eqb p (x, y) = true ->
     contact_history T (snd r) = contact_history T s /\
     dict_get (positions T (snd r)) person_id = Some (x, y)) /\
  (0 < max_history -> dict_get (positions T (snd r)) person_id = Some (x, y)) /\
  (0 < max_history -> keys_distinct (positions T s) ->
   dict_get (positions T s) person_id = None ->
   forall q p, py_eq q person_id = false -> dict_get (positions T s) q = Some p ->
   pos_eqb p (x, y) = true ->
   let calls := contact_appends T clock (ticks T s) person_id x y (positions T s1) in
   (forall o, hist (snd r) o = fold_left push (owner_events T o calls) (hist s o)) /\
   count_json (map person (owner_events T person_id calls)) q = 1 /\
   map person (owner_events T q calls) = [person_id]).
Proof.
  intros Hp Hv Hu Hh s1 r.
  assert (Hr : r = (Some tt,
     if moved (dict_get (positions T s) person_id) (x, y)
     then snd (check_contacts T clock max_history person_id x y s1) else s1))
    by exact (handle_position_update_accepted clock max_history s l person_id v x y
                Hp Hv Hu Hh).
  assert (Hs1 : dict_get (positions T s1) person_id = Some (x, y))
    by (simpl; rewrite dict_get_set, py_eq_refl; reflexivity).
  rewrite Hr; simpl.
  split; [reflexivity | split; [reflexivity | split; [| split]]].
  - intros p Hold Hpe; rewrite Hold; simpl; rewrite Hpe; simpl.
    split; [reflexivity | exact Hs1].
  - intro Hmax.
    destruct (moved _ _); [| exact Hs1].
    destruct (check_contacts_spec T clock max_history Hmax person_id x y s1)
      as (s' & E & P & _).
    rewrite E; simpl; rewrite P; exact Hs1.
  - intros Hmax Hnd Hold q p Hq Hg Hpe.
    rewrite Hold; simpl.
    assert (Hnd1 : keys_distinct (positions T s1))
      by (apply dict_set_distinct; exact Hnd).
    assert (Hg1 : dict_get (positions T s1) q = Some p)
      by (simpl; rewrite dict_get_set, Hq; exact Hg).
    destruct (check_contacts_appends s1 person_id x y Hmax Hnd1)
      as (_ & _ & Hh1 & Hpeer & _).
    split; [exact Hh1 | apply (Hpeer q p); assumption].
Qed.

(** Claim C4, as amended.  From the store of [test_position_check]
    ([person1] and [person2] at (1,1), [person3] at (2,2), no history),
    the detection scan [check_contacts("person1", 1, 1)], which is what
    the test calls, records exactly one contact for [person1] (naming
    [person2]) and one for [person2] (naming [person1]) and none for
    [person3]; whereas [handle_position_update] for [person1] at (1,1)
    records nothing, since [person1]'s stored position is unchanged. *)
Theorem test_position_check_scan speed timestamp :
  0 < max_history ->
  let s' := snd (check_contacts T clock max_history (JStr "person1") (JInt 1) (JInt 1)
                   (test_state T)) in
  hist s' (JStr "person1") = [mk_contact T (JStr "person2") (JInt 1, JInt 1) (clock 0)] /\
  hist s' (JStr "person2") = [mk_contact T (JStr "person1") (JInt 1, JInt 1) (clock 2)] /\
  hist s' (JStr "person3") = [] /\
  contact_history T (snd (handle_position_update T clock max_history
     (Some (position_message "person1" (JInt 1) (JInt 1) speed timestamp))
     (test_state T))) = [].
Proof.
  intro Hmax; destruct max_history as [| m]; [lia |].
  repeat split; vm_compute; reflexivity.
Qed.

(** Claim C5.  A query for any agent id [a] never raises: it replies with
    [a], the agent's history (the empty list when none is recorded, also
    for a never-seen agent) and a fresh clock reading. *)
Theorem handle_query_always_replies (s : tracker) a :
  let r := handle_query T clock a s in
  fst r = Some (mk_response T a (hist s (JStr a)) (clock (ticks T s))) /\
  (hist s (JStr a) = [] ->
     fst r = Some (mk_response T a [] (clock (ticks T s)))) /\
  (dict_get (contact_history T s) (JStr a) = None ->
     fst r = Some (mk_response T a [] (clock (ticks T s)))).
Proof.
  intro r; subst r; rewrite handle_query_spec; simpl.
  split; [reflexivity | split].
  - intro H; rewrite H; reflexivity.
  - intro H; unfold history_get; rewrite H; reflexivity.
Qed.

(** Claim C10.  A query leaves the store and every history as they were
    (only the clock has been read); in particular no entry is added to the
    history mapping for a never-seen agent. *)
Theorem handle_query_frame (s : tracker) a :
  let s' := snd (handle_query T clock a s) in
  positions T s' = positions T s /\ contact_history T s' = contact_history T s.
Proof. intro s'; subst s'; rewrite handle_query_spec; split; reflexivity. Qed.

(** Claim C6, as amended.  Ingesting an update never raises (every
    exception is caught and logged).  A body that is not JSON, is not an
    object, lacks ["person_id"] or ["position"], whose position does not
    unpack into exactly two values, or whose person id is unhashable, is
    dropped and leaves the store and every history as they were.  But any
    position that unpacks into two values is stored as it is, whatever
    those values are: the tracker does not check that they are integer
    coordinates. *)
Theorem handle_position_update_malformed (s : tracker) body :
  let r := handle_position_update T clock max_history body s in
  fst r = Some tt /\
  (body = None -> snd r = s) /\
  (forall d, body = Some d -> (forall l, d <> JObj l) -> snd r = s) /\
  (forall l, body = Some (JObj l) -> obj_lookup l "person_id" = None -> snd r = s) /\
  (forall l, body = Some (JObj l) -> obj_lookup l "position" = None -> snd r = s) /\
  (forall l person_id v, body = Some (JObj l) ->
     obj_lookup l "person_id" = Some person_id -> obj_lookup l "position" = Some v ->
     fst (unpack2 T v s) = None \/ hashable person_id = false -> snd r = s) /\
  (0 < max_history -> forall l person_id v x y, body = Some (JObj l) ->
     obj_lookup l "person_id" = Some person_id -> obj_lookup l "position" = Some v ->
     unpack2 T v s = (Some (x, y), s) -> hashable person_id = true ->
     dict_get (positions T (snd r)) person_id = Some (x, y)).
Proof.
  intro r; subst r.
  split; [reflexivity |].
  split; [intros ->; reflexivity |].
  split; [intros d -> Hd; destruct d; try (exfalso; eapply Hd; reflexivity);
          reflexivity |].
  split; [intros l -> Hp; unfold handle_position_update, try_log, bind, getitem, ret;
          simpl; rewrite Hp; reflexivity |].
  split; [intros l -> Hv; unfold handle_position_update, try_log, bind, getitem, ret;
          simpl; rewrite Hv; destruct (obj_lookup l "person_id"); reflexivity |].
  split.
  - intros l person_id v -> Hp Hv Hbad.
    unfold handle_position_update, try_log, bind at 1 2 3 4, getitem, ret at 1 2 3;
      simpl; rewrite Hp, Hv.
    pose proof (unpack2_state v s) as Hs.
    destruct (unpack2 T v s) as [[[x y] |] s'] eqn:Eu; simpl in Hs; subst s'.
    + destruct Hbad as [Hbad | Hbad]; [simpl in Hbad; discriminate |].
      unfold bind, positions_get; rewrite Hbad; reflexivity.
    + reflexivity.
  - intros Hmax l person_id v x y -> Hp Hv Hu Hh.
    rewrite (handle_position_update_positions clock max_history s l person_id v x y
               Hmax Hp Hv Hu Hh).
    rewrite dict_get_set, py_eq_refl; reflexivity.
Qed.

(** Claim C8, as amended.  The tracker itself does not check ranges (see
    [store_accepts_out_of_grid]); the bound comes from the publishers.  A
    simulator on a grid of [board_size >= 1] cells per axis, started on
    the grid (as [random.randint(0, board_size-1)] does), publishes only
    grid cells, whatever directions it draws; and if every ingested update
    is such a message, a store on the grid stays on the grid. *)
Theorem store_stays_in_grid (s : tracker) board_size init ds bodies :
  0 < max_history ->
  (0 < board_size)%Z ->
  in_grid board_size init ->
  Forall (in_grid board_size) (simulator_positions board_size init ds) /\
  (store_in_grid board_size (positions T s) ->
   Forall (fun b => exists person_id x y speed timestamp,
             b = Some (position_message person_id (JInt x) (JInt y) speed timestamp)
             /\ in_grid board_size (x, y)) bodies ->
   store_in_grid board_size
     (positions T (snd (handle_position_updates T clock max_history bodies s)))).
Proof.
  intros Hmax Hbs Hinit; split.
  - revert init Hinit; induction ds as [| d r IH]; intros init Hinit; simpl.
    + constructor; [exact Hinit | constructor].
    + constructor; [exact Hinit |].
      apply IH, move_randomly_in_grid; exact Hbs.
  - revert s; induction bodies as [| b r IH]; intros s Hs Hb; simpl; [exact Hs |].
    inversion Hb as [| ? ? (pid & x & y & sp & ts & -> & Hxy) Hr]; subst.
    unfold bind at 1.
    assert (Hp : positions T (snd (handle_position_update T clock max_history
       (Some (position_message pid (JInt x) (JInt y) sp ts)) s)) =
       dict_set (positions T s) (JStr pid) (JInt x, JInt y))
      by (apply (handle_position_update_positions clock max_history s _ (JStr pid)
                   (JArr [JInt x; JInt y])); auto).
    assert (Hok : fst (handle_position_update T clock max_history
       (Some (position_message pid (JInt x) (JInt y) sp ts)) s) = Some tt)
      by reflexivity.
    destruct (handle_position_update T clock max_history
       (Some (position_message pid (JInt x) (JInt y) sp ts)) s) as [o s1] eqn:E.
    simpl in Hok.
    subst o; apply IH; [| exact Hr].
    simpl in Hp; intros k p Hin; rewrite Hp in Hin.
    apply in_dict_set in Hin as [Hin | Hin]; [exact (Hs k p Hin) |].
    simpl in Hin; subst p; exists x, y; split; [reflexivity | exact Hxy].
Qed.

(** Claim C9.  [Tracker.run] consumes both queues on the one channel of a
    [BlockingConnection], in a single thread: [start_consuming] runs the
    callbacks one after the other, each to completion, so the run on a
    stream [ds] of position and query deliveries is the fold [consume].
    With a positive [max_history] it never raises, it answers every query,
    and the reply to the query at index [i] is the one [handle_query] gives
    on the state reached after all earlier deliveries have been processed
    completely: no query observes a position update whose contact events
    are only partly recorded.  And two updates, the first reports of two
    different agents [a1] and [a2], both landing on the cell of a stored
    agent [q], append to [q]'s history one event naming [a1], then one
    naming [a2]: neither append is lost or duplicated. *)
Theorem start_consuming_serializes (s : tracker) ds :
  0 < max_history ->
  (exists replies,
     fst (consume T clock max_history ds s) = Some replies /\
     length replies = count_queries ds /\
     forall i a, nth_error ds i = Some (Query a) ->
       nth_error replies (count_queries (firstn i ds)) =
       fst (handle_query T clock a (snd (consume T clock max_history (firstn i ds) s)))) /\
  (forall a1 a2 x1 y1 x2 y2 sp1 ts1 sp2 ts2 q qp,
     keys_distinct (positions T s) ->
     a1 <> a2 ->
     dict_get (positions T s) (JStr a1) = None ->
     dict_get (positions T s) (JStr a2) = None ->
     dict_get (positions T s) q = Some qp ->
     pos_eqb qp (x1, y1) = true -> pos_eqb qp (x2, y2) = true ->
     exists e1 e2,
       hist (snd (consume T clock max_history
                   [Position (Some (position_message a1 x1 y1 sp1 ts1));
                    Position (Some (position_message a2 x2 y2 sp2 ts2))] s)) q =
       push (push (hist s q) e1) e2 /\
       person e1 = JStr a1 /\ person e2 = JStr a2).
Proof.
  intro Hmax; split.
  - revert s; induction ds as [| d rest IH]; intro s.
    + exists []; split; [reflexivity | split; [reflexivity |]].
      intros i a H; destruct i; discriminate.
    + destruct d as [b | a].
      * destruct (IH (snd (handle_position_update T clock max_history b s)))
          as (rs & E & L & Hn).
        exists rs; rewrite consume_position.
        split; [exact E | split; [exact L |]].
        intros [| i] a' H; [discriminate |].
        change (firstn (S i) (Position b :: rest)) with (Position b :: firstn i rest).
        rewrite consume_position; exact (Hn i a' H).
      * destruct (consume_query clock max_history a rest s) as [Hf _].
        destruct (IH (snd (handle_query T clock a s))) as (rs & E & L & Hn).
        exists (mk_response T a (hist s (JStr a)) (clock (ticks T s)) :: rs).
        split; [rewrite Hf, E; reflexivity | split; [simpl; rewrite L; reflexivity |]].
        intros [| i] a' H.
        -- simpl in H; injection H as <-.
           change (snd (consume T clock max_history (firstn 0 (Query a :: rest)) s))
             with s.
           rewrite handle_query_spec; reflexivity.
        -- change (firstn (S i) (Query a :: rest)) with (Query a :: firstn i rest).
           destruct (consume_query clock max_history a (firstn i rest) s) as [_ Hs'].
           rewrite Hs'; exact (Hn i a' H).
  - intros a1 a2 x1 y1 x2 y2 sp1 ts1 sp2 ts2 q qp Hnd Hne H1 H2 Hq Hp1 Hp2.
    rewrite !consume_position.
    change (snd (consume T clock max_history []
                 (snd (handle_position_update T clock max_history
                    (Some (position_message a2 x2 y2 sp2 ts2))
                    (snd (handle_position_update T clock max_history
                       (Some (position_message a1 x1 y1 sp1 ts1)) s))))))
      with (snd (handle_position_update T clock max_history
                    (Some (position_message a2 x2 y2 sp2 ts2))
                    (snd (handle_position_update T clock max_history
                       (Some (position_message a1 x1 y1 sp1 ts1)) s)))).
    destruct (first_report_peer s a1 x1 y1 sp1 ts1 q qp Hmax Hnd H1 Hq Hp1)
      as (Hnd1 & Hk1 & e1 & He1 & Hpe1).
    set (s1 := snd (handle_position_update T clock max_history
                      (Some (position_message a1 x1 y1 sp1 ts1)) s)) in *.
    assert (Hqa1 : py_eq q (JStr a1) = false).
    { destruct (py_eq q (JStr a1)) eqn:E; [| reflexivity].
      rewrite (dict_get_congr _ q (JStr a1) E), H1 in Hq; discriminate. }
    assert (H2' : dict_get (positions T s1) (JStr a2) = None)
      by (rewrite Hk1 by (apply py_eq_str_neq; congruence); exact H2).
    assert (Hq' : dict_get (positions T s1) q = Some qp) by (rewrite Hk1 by exact Hqa1; exact Hq).
    destruct (first_report_peer s1 a2 x2 y2 sp2 ts2 q qp Hmax Hnd1 H2' Hq' Hp2)
      as (_ & _ & e2 & He2 & Hpe2).
    exists e1, e2; split; [rewrite He2, He1; reflexivity | split; assumption].
Qed.

End Claims.

(** ** Concrete runs: counterexamples and witnesses

    Runs with clock readings [clock n = n] and [MAX_HISTORY = 100]. *)

Definition p1 : json := JStr "person1".
Definition p2 : json := JStr "person2".

(** Claim C4 as stated fails: from the store of [test_position_check],
    the position update for [person1] at its unchanged cell (1,1) records
    no contact at all. *)
Lemma test_position_check_update_records_nothing :
  let s' := snd (handle_position_update nat (fun n => n) 100
                   (Some (position_message "person1" (JInt 1) (JInt 1) JNull JNull))
                   (test_state nat)) in
  history_get nat (contact_history nat s') p1 = [] /\
  history_get nat (contact_history nat s') p2 = [].
Proof. vm_compute; split; reflexivity. Qed.

(** Claim C6 as stated fails: the position ["ab"] is no coordinate pair,
    yet it unpacks into two characters and is stored. *)
Lemma malformed_position_stored :
  positions nat (snd (handle_position_update nat (fun n => n) 100
     (Some (JObj [("person_id"%string, JStr "p"); ("position"%string, JStr "ab")]))
     (mk_tracker nat [] [] 0)))
  = [(JStr "p", (JStr "a", JStr "b"))].
Proof. vm_compute; reflexivity. Qed.

(** Claim C8 as stated fails: an update at (-1, -1) is stored, and the
    store is then off the grid of [BOARD_SIZE = 10]. *)
Lemma store_accepts_out_of_grid :
  let ps := positions nat (snd (handle_position_update nat (fun n => n) 100
              (Some (position_message "p" (JInt (-1)) (JInt (-1)) JNull JNull))
              (mk_tracker nat [] [] 0))) in
  ps = [(JStr "p", (JInt (-1), JInt (-1)))] /\ ~ store_in_grid 10 ps.
Proof.
  simpl; split; [vm_compute; reflexivity |].
  intro H; destruct (H (JStr "p") (JInt (-1), JInt (-1))) as (x & y & Hp & Hg);
    [vm_compute; left; reflexivity |].
  injection Hp as <- <-; unfold in_grid in Hg; simpl in Hg; lia.
Qed.

Lemma test_state_distinct : keys_distinct (positions nat (test_state nat)).
Proof. unfold keys_distinct; simpl; repeat constructor; simpl; intuition discriminate. Qed.

Lemma check_contacts_records_both_directions_witness :
  0 < 100 /\ keys_distinct (positions nat (test_state nat)) /\
  fst (check_contacts nat (fun n => n) 100 p1 (JInt 1) (JInt 1) (test_state nat))
    = Some tt.
Proof.
  split; [lia | split; [exact test_state_distinct |]].
  exact (proj1 (check_contacts_records_both_directions nat (fun n => n) 100
                  (test_state nat) p1 (JInt 1) (JInt 1)
                  ltac:(lia) test_state_distinct)).
Defined.

Lemma check_contacts_separate_timestamps_witness :
  0 < 100 /\ keys_distinct (positions nat (test_state nat)) /\
  fst (check_contacts nat (fun n => n) 100 p1 (JInt 1) (JInt 1) (test_state nat))
    = Some tt.
Proof.
  split; [lia | split; [exact test_state_distinct |]].
  exact (proj1 (check_contacts_separate_timestamps nat (fun n => n) 100
                  (test_state nat) p1 (JInt 1) (JInt 1)
                  ltac:(lia) test_state_distinct)).
Defined.

Lemma contact_history_bounded_fifo_witness :
  0 < 2 /\ length (history_get nat (contact_history nat (test_state nat)) p1) <= 2 /\
  history_get nat (contact_history nat (snd (update_contact_history_seq nat 2 p1
     [mk_contact nat p2 (JInt 1, JInt 1) 1; mk_contact nat p2 (JInt 1, JInt 1) 2;
      mk_contact nat p2 (JInt 1, JInt 1) 3] (test_state nat)))) p1
  = lastn 2 [mk_contact nat p2 (JInt 1, JInt 1) 1; mk_contact nat p2 (JInt 1, JInt 1) 2;
             mk_contact nat p2 (JInt 1, JInt 1) 3].
Proof.
  split; [lia | split; [simpl; lia |]].
  exact (proj1 (proj2 (proj2 (contact_history_bounded_fifo nat (fun n => n) 2
            (test_state nat) "person1"
            [mk_contact nat p2 (JInt 1, JInt 1) 1; mk_contact nat p2 (JInt 1, JInt 1) 2;
             mk_contact nat p2 (JInt 1, JInt 1) 3] ltac:(lia) ltac:(simpl; lia))))).
Defined.

Lemma handle_position_update_scans_iff_moved_witness :
  obj_lookup [("person_id"%string, JStr "person4"); ("position"%string, JArr [JInt 1; JInt 1])]
    "person_id" = Some (JStr "person4") /\
  obj_lookup [("person_id"%string, JStr "person4"); ("position"%string, JArr [JInt 1; JInt 1])]
    "position" = Some (JArr [JInt 1; JInt 1]) /\
  unpack2 nat (JArr [JInt 1; JInt 1]) (test_state nat)
    = (Some (JInt 1, JInt 1), test_state nat) /\
  hashable (JStr "person4") = true /\
  fst (handle_position_update nat (fun n => n) 100
     (Some (JObj [("person_id"%string, JStr "person4");
                  ("position"%string, JArr [JInt 1; JInt 1])])) (test_state nat))
    = Some tt.
Proof.
  split; [reflexivity | split; [reflexivity | split; [reflexivity | split; [reflexivity |]]]].
  exact (proj1 (handle_position_update_scans_iff_moved nat (fun n => n) 100
                  (test_state nat)
                  [("person_id"%string, JStr "person4");
                   ("position"%string, JArr [JInt 1; JInt 1])]
                  (JStr "person4") (JArr [JInt 1; JInt 1]) (JInt 1) (JInt 1)
                  eq_refl eq_refl eq_refl eq_refl)).
Defined.

Lemma test_position_check_scan_witness :
  0 < 100 /\
  history_get nat (contact_history nat (snd (check_contacts nat (fun n => n) 100 p1
     (JInt 1) (JInt 1) (test_state nat)))) (JStr "person3") = [].
Proof.
  split; [lia |].
  exact (proj1 (proj2 (proj2 (test_position_check_scan nat (fun n => n) 100
                                JNull JNull ltac:(lia))))).
Defined.

Lemma store_stays_in_grid_witness :
  0 < 100 /\ (0 < 10)%Z /\ in_grid 10 (3, 4)%Z /\
  Forall (in_grid 10) (simulator_positions 10 (3, 4)%Z [(1, 1); (-1, 0)]%Z).
Proof.
  split; [lia | split; [lia | split; [unfold in_grid; simpl; lia |]]].
  exact (proj1 (store_stays_in_grid nat (fun n => n) 100 (test_state nat) 10 (3, 4)%Z
                  [(1, 1); (-1, 0)]%Z [] ltac:(lia) ltac:(lia)
                  ltac:(unfold in_grid; simpl; lia))).
Defined.

Definition query_run : list delivery :=
  [Position (Some (position_message "person4" (JInt 1) (JInt 1) JNull JNull));
   Query "person1";
   Position (Some (position_message "person5" (JBool true) (JBool true) JNull JNull));
   Query "person1"].

Lemma start_consuming_serializes_witness :
  0 < 100 /\
  (exists replies,
     fst (consume nat (fun n => n) 100 query_run (test_state nat)) = Some replies /\
     length replies = 2 /\
     nth_error replies 1 =
     fst (handle_query nat (fun n => n) "person1"
            (snd (consume nat (fun n => n) 100 (firstn 3 query_run) (test_state nat))))) /\
  (exists e1 e2,
     history_get nat (contact_history nat (snd (consume nat (fun n => n) 100
       [Position (Some (position_message "person4" (JInt 1) (JInt 1) JNull JNull));
        Position (Some (position_message "person5" (JBool true) (JBool true) JNull JNull))]
       (test_state nat)))) (JStr "person1") =
     push nat 100 (push nat 100 [] e1) e2 /\
     person e1 = JStr "person4" /\ person e2 = JStr "person5").
Proof.
  destruct (start_consuming_serializes nat (fun n => n) 100 (test_state nat) query_run
              ltac:(lia)) as [(rs & E & L & Hn) Hb].
  split; [lia | split].
  - exists rs; split; [exact E | split; [exact L | exact (Hn 3 "person1"%string eq_refl)]].
  - exact (Hb "person4"%string "person5"%string (JInt 1) (JInt 1) (JBool true) (JBool true) JNull JNull
             JNull JNull (JStr "person1") (JInt 1, JInt 1) test_state_distinct
             ltac:(discriminate) eq_refl eq_refl eq_refl eq_refl eq_refl).
Defined.

(** ** Further properties of the tracker, the simulator and the GUI *)

Section Frames.

Variable T : Type.
Variable clock : nat -> T.
Variable max_history : nat.

Abbreviation tracker := (tracker T).
Abbreviation hist s := (history_get T (contact_history T s)).

(** [m] keeps the invariant [I], whether it returns or raises. *)
Definition keeps {A : Type} (I : tracker -> Prop) (m : M T A) : Prop :=
  forall s, I s -> I (snd (m s)).

Lemma keeps_ret {A : Type} I (a : A) : keeps I (ret T a).
Proof. intros s H; exact H. Qed.

Lemma keeps_raise {A : Type} I : keeps I (@raise T A).
Proof. intros s H; exact H. Qed.

Lemma keeps_bind {A B : Type} I (m : M T A) (k : A -> M T B) :
  keeps I m -> (forall a, keeps I (k a)) -> keeps I (bind T m k).
Proof.
  intros Hm Hk s H; unfold bind.
  specialize (Hm s H); destruct (m s) as [[a |] s']; simpl in *;
    [apply Hk; exact Hm | exact Hm].
Qed.

Lemma keeps_try_log I (m : M T unit) : keeps I m -> keeps I (try_log T m).
Proof. intros Hm s H; exact (Hm s H). Qed.

Lemma scan_positions_keeps I :
  keeps I (time_time T clock) ->
  forall person_id x y items, keeps I (scan_positions T clock person_id x y items).
Proof.
  intros Ht person_id x y items.
  induction items as [| [q p] r IH]; simpl; [apply keeps_ret |].
  destruct (negb (py_eq q person_id) && pos_eqb p (x, y)); [| exact IH].
  apply keeps_bind; [exact Ht | intro t].
  apply keeps_bind; [exact Ht | intros _].
  apply keeps_bind; [exact IH | intro cs; apply keeps_ret].
Qed.

Lemma record_contacts_keeps I :
  keeps I (time_time T clock) ->
  (forall o e, keeps I (update_contact_history T max_history o e)) ->
  forall person_id x y cs,
    keeps I (record_contacts T clock max_history person_id x y cs).
Proof.
  intros Ht Hu person_id x y cs.
  induction cs as [| c r IH]; simpl; [apply keeps_ret |].
  apply keeps_bind; [apply Hu | intros _].
  apply keeps_bind; [exact Ht | intro t].
  apply keeps_bind; [apply Hu | intros _; exact IH].
Qed.

Lemma check_contacts_keeps I :
  keeps I (time_time T clock) ->
  (forall o e, keeps I (update_contact_history T max_history o e)) ->
  forall person_id x y, keeps I (check_contacts T clock max_history person_id x y).
Proof.
  intros Ht Hu person_id x y; unfold check_contacts.
  apply keeps_bind; [intros s H; exact H | intro s0].
  apply keeps_bind; [apply scan_positions_keeps; exact Ht |].
  intro cs; apply record_contacts_keeps; assumption.
Qed.

Lemma getitem_keeps I d k : keeps I (getitem T d k).
Proof.
  unfold getitem; destruct d; try apply keeps_raise.
  destruct (obj_lookup l k); [apply keeps_ret | apply keeps_raise].
Qed.

Lemma handle_position_update_keeps I :
  (forall s k p, I s -> I (snd (positions_set T k p s))) ->
  (forall person_id x y, keeps I (check_contacts T clock max_history person_id x y)) ->
  forall body, keeps I (handle_position_update T clock max_history body).
Proof.
  intros Hset Hcc body; unfold handle_position_update.
  apply keeps_try_log.
  apply keeps_bind; [destruct body; [apply keeps_ret | apply keeps_raise] | intro data].
  apply keeps_bind; [apply getitem_keeps | intro person_id].
  apply keeps_bind; [apply getitem_keeps | intro pos].
  apply keeps_bind; [intros s H; rewrite unpack2_state; exact H | intro xy].
  apply keeps_bind;
    [unfold positions_get; destruct (hashable person_id);
       [intros s H; exact H | apply keeps_raise] | intro old_pos].
  apply keeps_bind; [intros s H; apply Hset, H | intros _].
  destruct (moved old_pos xy); [apply Hcc | apply keeps_ret].
Qed.

Lemma handle_position_updates_keeps I :
  (forall s k p, I s -> I (snd (positions_set T k p s))) ->
  (forall person_id x y, keeps I (check_contacts T clock max_history person_id x y)) ->
  forall bodies, keeps I (handle_position_updates T clock max_history bodies).
Proof.
  intros Hset Hcc bodies; induction bodies as [| b r IH]; simpl; [apply keeps_ret |].
  apply keeps_bind; [apply handle_position_update_keeps; assumption | intros _; exact IH].
Qed.

(** The position store is untouched by the contact bookkeeping. *)
Lemma update_contact_history_keeps_positions ps o e :
  keeps (fun s => positions T s = ps) (update_contact_history T max_history o e).
Proof.
  unfold update_contact_history.
  apply keeps_bind;
    [unfold history_getitem; intros s H;
     destruct (dict_get (contact_history T s) o); exact H | intro h].
  apply keeps_bind; [| intro h'; intros s H; exact H].
  destruct (max_history <=? length h); [| apply keeps_ret].
  unfold popleft; destruct h; [apply keeps_raise |].
  apply keeps_bind; [intros s H; exact H | intros _; apply keeps_ret].
Qed.

Lemma check_contacts_positions_any (s : tracker) person_id x y :
  positions T (snd (check_contacts T clock max_history person_id x y s)) =
  positions T s.
Proof.
  apply (check_contacts_keeps (fun s' => positions T s' = positions T s));
    [intros s' H; exact H | intros o e; apply update_contact_history_keeps_positions
    | reflexivity].
Qed.

(** An update message as published by [PersonSimulator] is accepted, and
    the store then holds the reported position for its sender. *)
Lemma handle_position_update_message (s : tracker) person_id x y speed timestamp :
  let r := handle_position_update T clock max_history
             (Some (position_message person_id x y speed timestamp)) s in
  fst r = Some tt /\
  positions T (snd r) = dict_set (positions T s) (JStr person_id) (x, y).
Proof.
  intro r; subst r.
  unfold position_message.
  rewrite (handle_position_update_accepted clock max_history s
             [("person_id"%string, JStr person_id); ("position"%string, JArr [x; y]);
              ("speed"%string, speed); ("timestamp"%string, timestamp)]
             (JStr person_id) (JArr [x; y]) x y eq_refl eq_refl eq_refl eq_refl); simpl.
  split; [reflexivity |].
  destruct (moved _ _); [rewrite check_contacts_positions_any |]; reflexivity.
Qed.

(** With [max_history = 0] the histories stay empty. *)
Lemma update_contact_history_zero (s : tracker) o e :
  max_history = 0 -> hist s o = [] ->
  exists s', update_contact_history T max_history o e s = (None, s') /\
    positions T s' = positions T s /\
    dict_get (contact_history T s') o = Some [] /\
    forall k, hist s' k = hist s k.
Proof.
  intros H0 Ho; unfold update_contact_history, bind, history_getitem.
  destruct (dict_get (contact_history T s) o) as [h |] eqn:G.
  - assert (h = []) as ->
      by (unfold history_get in Ho; rewrite G in Ho; exact Ho).
    rewrite H0; simpl.
    exists s; repeat split; assumption.
  - rewrite H0; simpl.
    eexists; split; [reflexivity | split; [reflexivity | split]].
    + simpl; rewrite dict_get_set, py_eq_refl; reflexivity.
    + intro k; simpl; rewrite history_get_set.
      destruct (py_eq k o) eqn:E; [| reflexivity].
      rewrite (history_get_congr T _ k o E); symmetry; exact Ho.
Qed.

Lemma all_empty_keeps_zero :
  max_history = 0 ->
  forall person_id x y,
    keeps (fun s => forall k, hist s k = [])
      (check_contacts T clock max_history person_id x y).
Proof.
  intro H0; apply check_contacts_keeps; [intros s H k; exact (H k) |].
  intros o e s H.
  destruct (update_contact_history_zero s o e H0 (H o)) as (s' & E & _ & _ & Hk).
  rewrite E; simpl; intro k; rewrite Hk; apply H.
Qed.

(** [check_contacts] when no other agent shares the cell. *)
Lemma scan_positions_none (s : tracker) person_id x y items :
  (forall q p, In (q, p) items -> py_eq q person_id = true \/ pos_eqb p (x, y) = false) ->
  scan_positions T clock person_id x y items s = (Some [], s).
Proof.
  induction items as [| [q p] r IH]; intro H; simpl; [reflexivity |].
  assert (Hf : negb (py_eq q person_id) && pos_eqb p (x, y) = false).
  { destruct (H q p (or_introl eq_refl)) as [Hq | Hp].
    - rewrite Hq; reflexivity.
    - rewrite Hp; apply andb_false_r. }
  rewrite Hf; apply IH; intros q' p' Hin; apply H; right; exact Hin.
Qed.

End Frames.

Lemma existsb_json_in k l : existsb (json_eqb k) l = true <-> In k l.
Proof.
  rewrite existsb_exists; split.
  - intros (z & Hz & E); apply json_eqb_eq in E; subst; exact Hz.
  - intro H; exists k; split; [exact H | apply json_eqb_refl].
Qed.

Lemma nodup_fst_inj {A B : Type} (l : list (A * B)) a b :
  NoDup (map fst l) -> In a l -> In b l -> fst a = fst b -> a = b.
Proof.
  induction l as [| c r IH]; simpl; [intros _ [] |].
  intros Hnd Ha Hb Hab; inversion Hnd as [| ? ? Hc Hr]; subst.
  destruct Ha as [<- | Ha], Hb as [<- | Hb]; auto.
  - exfalso; apply Hc; rewrite Hab; apply in_map; exact Hb.
  - exfalso; apply Hc; rewrite <- Hab; apply in_map; exact Ha.
Qed.

Lemma meeting_spots_fold {T : Type} (people_data : list (json * gui_entry T)) :
  forall acc pos,
  dict_get
    (fold_left
       (fun ms pd =>
          let pos := gposition (snd pd) in
          dict_set ms pos
            (app (match dict_get ms pos with Some l => l | None => [] end) [fst pd]))
       people_data acc) pos =
  match dict_get acc pos, people_at people_data pos with
  | Some a, l => Some (a ++ l)
  | None, [] => None
  | None, l => Some l
  end.
Proof.
  unfold people_at.
  induction people_data as [| [pid e] r IH]; intros acc pos; simpl.
  - destruct (dict_get acc pos); rewrite ?app_nil_r; reflexivity.
  - rewrite IH, dict_get_set.
    rewrite (py_eq_sym (gposition e) pos).
    destruct (py_eq pos (gposition e)) eqn:E; simpl; [| reflexivity].
    rewrite (dict_get_congr acc (gposition e) pos) by (rewrite py_eq_sym; exact E).
    destruct (dict_get acc pos); simpl; rewrite <- ?app_assoc; reflexivity.
Qed.

Lemma meeting_spots_get {T : Type} (people_data : list (json * gui_entry T)) pos :
  dict_get (meeting_spots people_data) pos =
  match people_at people_data pos with [] => None | l => Some l end.
Proof.
  unfold meeting_spots; rewrite meeting_spots_fold; simpl.
  destruct (people_at people_data pos); reflexivity.
Qed.

Lemma meeting_spots_distinct {T : Type} (people_data : list (json * gui_entry T)) :
  keys_distinct (meeting_spots people_data).
Proof.
  unfold meeting_spots.
  assert (H : forall acc, keys_distinct acc ->
    keys_distinct (fold_left
       (fun ms pd =>
          let pos := gposition (snd pd) in
          dict_set ms pos
            (app (match dict_get ms pos with Some l => l | None => [] end) [fst pd]))
       people_data acc)).
  { induction people_data as [| pd r IH]; intros acc Hacc; simpl; [exact Hacc |].
    apply IH, dict_set_distinct, Hacc. }
  apply H; constructor.
Qed.

Lemma filter_filter_and {A : Type} (f g : A -> bool) l :
  filter f (filter g l) = filter (fun a => g a && f a) l.
Proof.
  induction l as [| a r IH]; simpl; [reflexivity |].
  destruct (g a); simpl; [destruct (f a); simpl |]; rewrite IH; reflexivity.
Qed.

Lemma fold_dict_pop {A : Type} (ks : list json) : forall (d : list (json * A)),
  fold_left dict_pop ks d =
  filter (fun kv => negb (existsb (json_eqb (fst kv)) ks)) d.
Proof.
  induction ks as [| k r IH]; intro d; simpl.
  - induction d as [| a d' IHd]; simpl; [reflexivity | f_equal; exact IHd].
  - rewrite IH; unfold dict_pop; rewrite filter_filter_and.
    apply filter_ext; intro kv.
    destruct (json_eqb (fst kv) k), (existsb (json_eqb (fst kv)) r); reflexivity.
Qed.

Lemma move_randomly_step_any board_size position d :
  in_grid board_size position -> In d directions ->
  let p' := move_randomly board_size position d in
  in_grid board_size p' /\
  (Z.abs (fst p' - fst position) <= 1)%Z /\ (Z.abs (snd p' - snd position) <= 1)%Z /\
  (in_grid board_size (fst position + fst d, snd position + snd d)%Z ->
   p' = (fst position + fst d, snd position + snd d)%Z).
Proof.
  destruct position as [a b]; unfold in_grid, move_randomly; simpl.
  intros [Ha Hb] Hd.
  unfold directions in Hd; simpl in Hd.
  repeat (destruct Hd as [Hd | Hd]; [subst d; simpl; split; [lia | split; [lia | split;
            [lia | intros [H1 H2]; f_equal; lia]]] |]).
  contradiction.
Qed.

Lemma simulator_positions_head board_size position ds :
  nth_error (simulator_positions board_size position ds) 0 = Some position.
Proof. destruct ds; reflexivity. Qed.

Section Extras.

Variable T : Type.
Variable clock : nat -> T.
Variable max_history : nat.

Abbreviation tracker := (tracker T).
Abbreviation push := (push T max_history).
Abbreviation hist s := (history_get T (contact_history T s)).

(** Extra X1.  With a positive [max_history], [update_contact_history o e]
    never raises; it appends [e] to [o]'s history, first dropping the
    oldest entry exactly when the history already holds [max_history]
    entries, and it changes neither the store, nor the clock, nor any
    other agent's history. *)
Theorem update_contact_history_only_touches_owner (s : tracker) o e :
  0 < max_history ->
  let r := update_contact_history T max_history o e s in
  fst r = Some tt /\
  positions T (snd r) = positions T s /\ ticks T (snd r) = ticks T s /\
  hist (snd r) o =
    (if max_history <=? length (hist s o) then tl (hist s o) else hist s o) ++ [e] /\
  forall k, py_eq k o = false -> hist (snd r) k = hist s k.
Proof.
  intros Hmax r; subst r.
  destruct (update_contact_history_spec T max_history Hmax o e s) as (s' & E & P & Tk & H).
  rewrite E; simpl.
  split; [reflexivity | split; [exact P | split; [exact Tk | split]]].
  - rewrite H, py_eq_refl; reflexivity.
  - intros k Hk; rewrite H, Hk; reflexivity.
Qed.

(** Extra X2.  With [max_history = 0], [update_contact_history o e] on an
    agent with an empty (or absent) history raises [IndexError] from
    [popleft] before appending anything; the [defaultdict] access has by
    then left an empty entry for [o] in the history mapping, and nothing
    else has changed. *)
Theorem update_contact_history_zero_bound_raises (s : tracker) o e :
  max_history = 0 -> hist s o = [] ->
  let r := update_contact_history T max_history o e s in
  fst r = None /\
  positions T (snd r) = positions T s /\
  dict_get (contact_history T (snd r)) o = Some [] /\
  forall k, hist (snd r) k = hist s k.
Proof.
  intros H0 Ho r; subst r.
  destruct (update_contact_history_zero T max_history s o e H0 Ho)
    as (s' & E & P & G & H).
  rewrite E; simpl; split; [reflexivity | split; [exact P | split; assumption]].
Qed.

(** Extra X3.  As in [test_contact_history] (src/test_tracker.py): with a
    positive [max_history], appending [n] events to an agent with no
    history leaves exactly [min n max_history] of them; in particular
    [max_history + 10] appends leave [max_history]. *)
Theorem update_contact_history_seq_length (s : tracker) a es :
  0 < max_history -> hist s (JStr a) = [] ->
  length (hist (snd (update_contact_history_seq T max_history (JStr a) es s)) (JStr a))
  = Nat.min (length es) max_history.
Proof.
  intros Hmax He.
  destruct (update_contact_history_seq_spec T max_history Hmax (JStr a) es s)
    as (s' & E & _ & H).
  rewrite E; simpl; rewrite H, py_eq_refl, He.
  rewrite fold_push_lastn by (simpl; lia).
  unfold lastn; simpl; rewrite length_skipn; lia.
Qed.

(** Extra X4.  The events [check_contacts person_id x y] appends to
    [person_id]'s own history name the other agents stored at [(x, y)],
    one each, in the store's iteration order; the k-th of them (from 0)
    carries the clock reading [ticks + 2k] taken by the scan. *)
Theorem check_contacts_own_events_in_store_order (s : tracker) person_id x y :
  0 < max_history ->
  let qs := colocated (positions T s) person_id x y in
  let s' := snd (check_contacts T clock max_history person_id x y s) in
  hist s' person_id =
    fold_left push (fwd_contacts T clock x y (ticks T s) qs) (hist s person_id) /\
  map person (fwd_contacts T clock x y (ticks T s) qs) = qs.
Proof.
  intros Hmax qs s'.
  destruct (check_contacts_spec T clock max_history Hmax person_id x y s)
    as (s'' & E & _ & _ & H).
  subst s'; rewrite E; simpl; rewrite H; unfold contact_appends.
  fold qs.
  rewrite owner_events_self.
  - split; [reflexivity | apply fwd_contacts_person].
  - intros c Hc.
    assert (Hin : In (person c) qs)
      by (rewrite <- (fwd_contacts_person T clock x y qs (ticks T s));
          apply in_map; exact Hc).
    apply colocated_in in Hin as [_ Hne]; exact Hne.
Qed.

(** Extra X5.  When no other agent is stored at [(x, y)], [check_contacts]
    returns without any effect: no history entry is created and the clock
    is not read. *)
Theorem check_contacts_no_peer_is_noop (s : tracker) person_id x y :
  (forall q p, In (q, p) (positions T s) ->
     py_eq q person_id = true \/ pos_eqb p (x, y) = false) ->
  check_contacts T clock max_history person_id x y s = (Some tt, s).
Proof.
  intro H; unfold check_contacts, bind at 1, get; cbv beta iota.
  unfold bind at 1; rewrite (scan_positions_none T clock s person_id x y _ H).
  reflexivity.
Qed.

(** Extra X6.  [check_contacts] never changes the position store, whatever
    [max_history] is, even when it raises part way. *)
Theorem check_contacts_never_moves_agents (s : tracker) person_id x y :
  positions T (snd (check_contacts T clock max_history person_id x y s)) =
  positions T s.
Proof. apply check_contacts_positions_any. Qed.

(** Extra X8.  A simulator message from [person_id] keeps the store's
    iteration order: a known agent keeps its place, a new agent is added
    last. *)
Theorem handle_position_update_key_order (s : tracker) person_id x y speed timestamp :
  let keys := map fst (positions T s) in
  let keys' := map fst (positions T (snd (handle_position_update T clock max_history
                  (Some (position_message person_id x y speed timestamp)) s))) in
  (In (JStr person_id) keys -> keys' = keys) /\
  (~ In (JStr person_id) keys -> keys' = keys ++ [JStr person_id]).
Proof.
  intros keys keys'; subst keys keys'.
  destruct (handle_position_update_message T clock max_history s person_id x y
              speed timestamp) as [_ P].
  rewrite P, keys_dict_set.
  destruct (existsb (py_eq (JStr person_id)) (map fst (positions T s))) eqn:E;
    split; intro H; try reflexivity.
  - apply existsb_str_in in E; contradiction.
  - apply existsb_str_in in H; congruence.
Qed.

(** Extra X9.  After a stream of simulator messages, reporting
    [(person_id, (x, y))] in order, the store holds for each key the
    position last reported for it, and the previous entry for a key that
    was not reported. *)
Theorem handle_position_updates_last_report (s : tracker) bodies reports :
  Forall2 (fun b r => exists speed timestamp,
             b = Some (position_message (fst r) (fst (snd r)) (snd (snd r))
                         speed timestamp)) bodies reports ->
  forall k,
    dict_get (positions T (snd (handle_position_updates T clock max_history
                                  bodies s))) k =
    match last_report reports k with
    | Some p => Some p
    | None => dict_get (positions T s) k
    end.
Proof.
  intro HF; revert s.
  induction HF as [| b r bs rs Hbr HF IH]; intros s k; [reflexivity |].
  destruct Hbr as (sp & ts & ->); destruct r as [a [x y]]; simpl fst; simpl snd.
  destruct (handle_position_update_message T clock max_history s a x y sp ts)
    as [Ok P].
  cbn [handle_position_updates last_report].
  unfold bind at 1.
  destruct (handle_position_update T clock max_history
              (Some (position_message a x y sp ts)) s) as [o s1].
  simpl in Ok, P; subst o.
  rewrite IH, P, dict_get_set, py_eq_str.
  destruct (last_report rs k); [reflexivity |].
  destruct (json_eqb k (JStr a)); reflexivity.
Qed.

(** Extra X10.  With [max_history = 0] no contact is ever kept: from
    empty histories, any stream of updates leaves every history empty
    (each append raises inside [update_contact_history], and the
    exception is swallowed by [handle_position_update]), and a query then
    returns no contacts for anyone. *)
Theorem zero_max_history_records_nothing (s : tracker) bodies :
  max_history = 0 -> (forall k, hist s k = []) ->
  let s' := snd (handle_position_updates T clock max_history bodies s) in
  (forall k, hist s' k = []) /\
  forall a, fst (handle_query T clock a s') =
            Some (mk_response T a [] (clock (ticks T s'))).
Proof.
  intros H0 He s'.
  assert (Hs : forall k, hist s' k = []).
  { apply (handle_position_updates_keeps T clock max_history
             (fun s => forall k, hist s k = [])); [| | exact He].
    - intros s0 k p H k'; exact (H k').
    - apply all_empty_keeps_zero; exact H0. }
  split; [exact Hs |].
  intro a; rewrite handle_query_spec; simpl; rewrite Hs; reflexivity.
Qed.

End Extras.

(** Extra X11.  One move of the simulator from a grid cell, for any of the
    eight directions, lands on the grid, changes each coordinate by at
    most one, and is exactly the step [position + d] whenever that target
    is on the grid (clamping only acts at the border). *)
Theorem move_randomly_step board_size position d :
  in_grid board_size position -> In d directions ->
  let p' := move_randomly board_size position d in
  in_grid board_size p' /\
  (Z.abs (fst p' - fst position) <= 1)%Z /\ (Z.abs (snd p' - snd position) <= 1)%Z /\
  (in_grid board_size (fst position + fst d, snd position + snd d)%Z ->
   p' = (fst position + fst d, snd position + snd d)%Z).
Proof. apply move_randomly_step_any. Qed.

(** Extra X12.  Two consecutive positions published by a simulator
    started on the grid are at most one cell apart on each axis. *)
Theorem simulator_moves_one_cell board_size init ds :
  in_grid board_size init -> Forall (fun d => In d directions) ds ->
  forall i p q,
    nth_error (simulator_positions board_size init ds) i = Some p ->
    nth_error (simulator_positions board_size init ds) (S i) = Some q ->
    (Z.abs (fst q - fst p) <= 1)%Z /\ (Z.abs (snd q - snd p) <= 1)%Z.
Proof.
  intros Hin Hds; revert init Hin.
  induction Hds as [| d r Hd Hr IH]; intros init Hin i p q Hp Hq.
  - destruct i; discriminate.
  - assert (Hs : forall j, nth_error (simulator_positions board_size init (d :: r)) (S j)
                  = nth_error (simulator_positions board_size
                                 (move_randomly board_size init d) r) j)
      by reflexivity.
    rewrite Hs in Hq.
    destruct i as [| i].
    + rewrite simulator_positions_head in Hp, Hq.
      injection Hp as <-; injection Hq as <-.
      destruct (move_randomly_step_any board_size init d Hin Hd) as (_ & H1 & H2 & _).
      split; assumption.
    + rewrite Hs in Hp.
      apply (IH (move_randomly board_size init d)) with (i := i); [| exact Hp | exact Hq].
      exact (proj1 (move_randomly_step_any board_size init d Hin Hd)).
Qed.

(** Extra X13.  [draw_people] raises in its first pass, before any meeting
    indicator is drawn, exactly when some entry has an id that is not a
    non-empty string or a position that is not a pair of numbers.
    Otherwise it draws one indicator per cell on which [n >= 2] people
    stand, cells being told apart by [==] (so (1, 1) and (True, True) are
    one cell), labelled with [n]; the indicators are for pairwise
    unequal cells. *)
Theorem draw_people_indicators {T : Type} (people_data : list (json * gui_entry T)) :
  (draw_people people_data = None <->
   Exists (fun pd => first_pass_ok pd = false) people_data) /\
  forall inds, draw_people people_data = Some inds ->
    (forall pos n, In (pos, n) inds ->
       n = length (people_at people_data pos) /\ 2 <= n) /\
    (forall pos, 2 <= length (people_at people_data pos) ->
       exists pos', py_eq pos' pos = true /\
                    In (pos', length (people_at people_data pos)) inds) /\
    keys_distinct inds.
Proof.
  split.
  - unfold draw_people; rewrite <- forallb_false_exists.
    destruct (forallb first_pass_ok people_data); split; congruence.
  - intros inds H; unfold draw_people in H.
    destruct (forallb first_pass_ok people_data); [injection H as <- | discriminate].
    split; [| split].
    + intros pos n Hin; unfold meeting_indicators in Hin.
      apply in_map_iff in Hin as ([pos' ps] & Heq & Hin); simpl in Heq.
      injection Heq as -> <-.
      apply filter_In in Hin as [Hin Hlt]; simpl in Hlt; apply Nat.ltb_lt in Hlt.
      pose proof (dict_get_in_distinct _ _ _ (meeting_spots_distinct people_data) Hin) as G.
      rewrite meeting_spots_get in G.
      destruct (people_at people_data pos) as [| a l]; [discriminate |].
      injection G as <-; split; [reflexivity | simpl in *; lia].
    + intros pos Hn.
      assert (G : dict_get (meeting_spots people_data) pos =
                  Some (people_at people_data pos)).
      { rewrite meeting_spots_get.
        destruct (people_at people_data pos); [simpl in Hn; lia | reflexivity]. }
      apply dict_get_some_in in G as (pos' & Ep & Hin).
      exists pos'; split; [rewrite py_eq_sym; exact Ep |].
      unfold meeting_indicators; apply in_map_iff.
      exists (pos', people_at people_data pos); split; [reflexivity |].
      apply filter_In; split; [exact Hin | simpl; apply Nat.ltb_lt; lia].
    + unfold keys_distinct, meeting_indicators; rewrite map_map; simpl.
      apply (keys_distinct_filter (fun pp => 1 <? length (snd pp))),
        meeting_spots_distinct.
Qed.

(** Extra X14.  The pruning step of [update_gui] removes exactly the stale
    entries of [people_data] and keeps the others, in their order. *)
Theorem remove_inactive_keeps_fresh {T : Type} (stale : T -> bool)
    (people_data : list (json * gui_entry T)) :
  NoDup (map fst people_data) ->
  remove_inactive stale people_data =
  filter (fun pd => negb (stale (last_update (snd pd)))) people_data.
Proof.
  intro Hnd; unfold remove_inactive; rewrite fold_dict_pop.
  apply filter_ext_in; intros kv Hin; f_equal.
  set (P := fun pd : json * gui_entry T => stale (last_update (snd pd))).
  change (stale (last_update (snd kv))) with (P kv).
  destruct (P kv) eqn:Ep.
  - apply existsb_json_in, in_map, filter_In; split; assumption.
  - destruct (existsb _ _) eqn:Ex; [| reflexivity].
    apply existsb_json_in, in_map_iff in Ex as (kv' & Hk & Hin').
    apply filter_In in Hin' as [Hin' Hs].
    assert (kv' = kv) by (apply (nodup_fst_inj people_data); auto).
    subst kv'; unfold P in *; cbv beta in *; congruence.
Qed.

(** ** Concrete runs for the further properties *)

Definition e12 : contact nat := mk_contact nat p2 (JInt 1, JInt 1) 7.

Definition gui_people : list (json * gui_entry nat) :=
  [(p1, mk_gui_entry nat (JArr [JInt 1; JInt 1]) JNull 2);
   (p2, mk_gui_entry nat (JArr [JInt 1; JInt 1]) JNull 9);
   (JStr "person3", mk_gui_entry nat (JArr [JInt 4; JInt 0]) JNull 8)].

Lemma update_contact_history_only_touches_owner_witness :
  0 < 100 /\
  fst (update_contact_history nat 100 p1 e12 (test_state nat)) = Some tt.
Proof.
  split; [lia |].
  exact (proj1 (update_contact_history_only_touches_owner nat 100 (test_state nat)
                  p1 e12 ltac:(lia))).
Defined.

Lemma update_contact_history_zero_bound_raises_witness :
  0 = 0 /\ history_get nat (contact_history nat (test_state nat)) p1 = [] /\
  fst (update_contact_history nat 0 p1 e12 (test_state nat)) = None.
Proof.
  split; [reflexivity | split; [reflexivity |]].
  exact (proj1 (update_contact_history_zero_bound_raises nat 0 (test_state nat)
                  p1 e12 eq_refl eq_refl)).
Defined.

Lemma update_contact_history_seq_length_witness :
  0 < 2 /\ history_get nat (contact_history nat (test_state nat)) p1 = [] /\
  length (history_get nat (contact_history nat
    (snd (update_contact_history_seq nat 2 p1 [e12; e12; e12] (test_state nat))))
    p1) = 2.
Proof.
  split; [lia | split; [reflexivity |]].
  exact (update_contact_history_seq_length nat 2 (test_state nat) "person1"
           [e12; e12; e12] ltac:(lia) eq_refl).
Defined.

Lemma check_contacts_own_events_in_store_order_witness :
  0 < 100 /\
  map person (fwd_contacts nat (fun n => n) (JInt 1) (JInt 1) 0
                (colocated (positions nat (test_state nat)) p1 (JInt 1) (JInt 1)))
  = [p2].
Proof.
  split; [lia |].
  exact (proj2 (check_contacts_own_events_in_store_order nat (fun n => n) 100
                  (test_state nat) p1 (JInt 1) (JInt 1) ltac:(lia))).
Defined.

Lemma check_contacts_no_peer_is_noop_witness :
  (forall q p, In (q, p) (positions nat (test_state nat)) ->
     py_eq q (JStr "person4") = true \/ pos_eqb p (JInt 5, JInt 5) = false) /\
  check_contacts nat (fun n => n) 100 (JStr "person4") (JInt 5) (JInt 5)
    (test_state nat) = (Some tt, test_state nat).
Proof.
  assert (H : forall q p, In (q, p) (positions nat (test_state nat)) ->
                py_eq q (JStr "person4") = true \/ pos_eqb p (JInt 5, JInt 5) = false).
  { intros q p Hin; right; simpl in Hin.
    repeat destruct Hin as [Hin | Hin]; try contradiction;
      injection Hin as <- <-; reflexivity. }
  split; [exact H |].
  exact (check_contacts_no_peer_is_noop nat (fun n => n) 100 (test_state nat)
           (JStr "person4") (JInt 5) (JInt 5) H).
Defined.

Lemma handle_position_updates_last_report_witness :
  Forall2 (fun b r => exists speed timestamp,
             b = Some (position_message (fst r) (fst (snd r)) (snd (snd r))
                         speed timestamp))
    [Some (position_message "p" (JInt 1) (JInt 2) JNull JNull);
     Some (position_message "p" (JInt 3) (JInt 3) JNull JNull)]
    [("p"%string, (JInt 1, JInt 2)); ("p"%string, (JInt 3, JInt 3))] /\
  dict_get (positions nat (snd (handle_position_updates nat (fun n => n) 100
     [Some (position_message "p" (JInt 1) (JInt 2) JNull JNull);
      Some (position_message "p" (JInt 3) (JInt 3) JNull JNull)]
     (test_state nat)))) (JStr "p") = Some (JInt 3, JInt 3).
Proof.
  assert (HF : Forall2 (fun b r => exists speed timestamp,
             b = Some (position_message (fst r) (fst (snd r)) (snd (snd r))
                         speed timestamp))
    [Some (position_message "p" (JInt 1) (JInt 2) JNull JNull);
     Some (position_message "p" (JInt 3) (JInt 3) JNull JNull)]
    [("p"%string, (JInt 1, JInt 2)); ("p"%string, (JInt 3, JInt 3))])
    by (repeat constructor; exists JNull, JNull; reflexivity).
  split; [exact HF |].
  rewrite (handle_position_updates_last_report nat (fun n => n) 100 (test_state nat)
             _ _ HF (JStr "p")).
  reflexivity.
Defined.

Lemma zero_max_history_records_nothing_witness :
  0 = 0 /\ (forall k, history_get nat (contact_history nat (test_state nat)) k = []) /\
  history_get nat (contact_history nat (snd (handle_position_updates nat (fun n => n) 0
     [Some (position_message "person4" (JInt 1) (JInt 1) JNull JNull)]
     (test_state nat)))) p2 = [].
Proof.
  assert (He : forall k, history_get nat (contact_history nat (test_state nat)) k = [])
    by (intro k; reflexivity).
  split; [reflexivity | split; [exact He |]].
  exact (proj1 (zero_max_history_records_nothing nat (fun n => n) 0 (test_state nat)
                  [Some (position_message "person4" (JInt 1) (JInt 1) JNull JNull)]
                  eq_refl He) p2).
Defined.

Lemma move_randomly_step_witness :
  in_grid 10 (3, 4)%Z /\ In (1, 1)%Z directions /\
  move_randomly 10 (3, 4)%Z (1, 1)%Z = (4, 5)%Z.
Proof.
  assert (Hg : in_grid 10 (3, 4)%Z) by (unfold in_grid; simpl; lia).
  assert (Hd : In (1, 1)%Z directions) by (simpl; tauto).
  split; [exact Hg | split; [exact Hd |]].
  exact (proj2 (proj2 (proj2 (move_randomly_step 10 (3, 4)%Z (1, 1)%Z Hg Hd)))
           ltac:(unfold in_grid; simpl; lia)).
Defined.

Lemma simulator_moves_one_cell_witness :
  in_grid 10 (0, 0)%Z /\ Forall (fun d => In d directions) [(-1, -1); (1, 1)]%Z /\
  (Z.abs (fst (0, 0)%Z - fst (0, 0)%Z) <= 1)%Z /\ (Z.abs (snd (0, 0)%Z - snd (0, 0)%Z) <= 1)%Z.
Proof.
  assert (Hg : in_grid 10 (0, 0)%Z) by (unfold in_grid; simpl; lia).
  assert (Hd : Forall (fun d => In d directions) [(-1, -1); (1, 1)]%Z)
    by (repeat constructor; simpl; tauto).
  split; [exact Hg | split; [exact Hd |]].
  exact (simulator_moves_one_cell 10 (0, 0)%Z [(-1, -1); (1, 1)]%Z Hg Hd 0
           (0, 0)%Z (0, 0)%Z eq_refl eq_refl).
Defined.

Lemma remove_inactive_keeps_fresh_witness :
  NoDup (map fst gui_people) /\
  remove_inactive (fun t => t <? 5) gui_people =
  [(p2, mk_gui_entry nat (JArr [JInt 1; JInt 1]) JNull 9);
   (JStr "person3", mk_gui_entry nat (JArr [JInt 4; JInt 0]) JNull 8)].
Proof.
  assert (Hnd : NoDup (map fst gui_people))
    by (simpl; repeat constructor; simpl; intuition discriminate).
  split; [exact Hnd |].
  rewrite (remove_inactive_keeps_fresh (fun t => t <? 5) gui_people Hnd).
  reflexivity.
Defined.

Lemma draw_people_indicators_witness :
  draw_people gui_people = Some [(JArr [JInt 1; JInt 1], 2)] /\
  (forall pos n, In (pos, n) [(JArr [JInt 1; JInt 1], 2)] ->
     n = length (people_at gui_people pos) /\ 2 <= n).
Proof.
  assert (H : draw_people gui_people = Some [(JArr [JInt 1; JInt 1], 2)])
    by reflexivity.
  split; [exact H |].
  exact (proj1 (proj2 (draw_people_indicators gui_people) _ H)).
Defined.
